(** * Session-state partitioning for widgets: a model of [widget_base.py]

    The module [widget_base] keeps two pieces of global state:
    - [used_key_prefixes], the set of key prefixes handed out during the
      current execution of the script, and
    - [st.session_state], the host's flat store, one entry of which
      (under [_PERSIST_STATE_KEY]) holds the set of keys to persist.

    [WidgetBase.__init__] derives the key prefix of a new widget from the
    frames of [inspect.stack()]; the accessors read and write the store
    under that prefix.  The definitions below follow the Python source
    function by function; Python exceptions are results of type [outcome]. *)

From Stdlib Require Import Ascii.
From stdpp Require Import base gmap sets list strings pretty.

(** ** Python values and exceptions *)

(** The values the store holds: plain values (the widgets store strings,
    booleans and [None]) and the set of persisted keys. *)
Inductive pyval :=
  | PyNone
  | PyBool (b : bool)
  | PyInt (z : Z)
  | PyStr (s : string)
  | PySet (keys : gset string).

#[global] Instance pyval_eq_dec : EqDecision pyval.
Proof. solve_decision. Defined.

Inductive exn := TypeError | AttributeError | KeyError.

(** What a call produces: a value, a raised exception, or [OutOfFuel] when a
    loop of the model ran out of fuel (shown below not to happen). *)
Inductive outcome (A : Type) :=
  | Ok (a : A)
  | Raise (e : exn)
  | OutOfFuel.
Arguments Ok {A} a.
Arguments Raise {A} e.
Arguments OutOfFuel {A}.

#[global] Instance outcome_ret : MRet outcome := λ A a, Ok a.
#[global] Instance outcome_bind : MBind outcome := λ A B f m,
  match m with
  | Ok a => f a
  | Raise e => Raise e
  | OutOfFuel => OutOfFuel
  end.

(** ** Strings *)

(** [needle in hay] on Python strings. *)
Fixpoint str_contains (needle hay : string) : bool :=
  String.prefix needle hay ||
  match hay with
  | EmptyString => false
  | String _ rest => str_contains needle rest
  end.

(** [key in container]: membership for a set, substring test for a
    string, [TypeError] for a value that is not a container. *)
Definition py_in (key : string) (container : pyval) : outcome bool :=
  match container with
  | PySet keys => Ok (bool_decide (key ∈ keys))
  | PyStr s => Ok (str_contains key s)
  | _ => Raise TypeError
  end.

(** [container.add(key)]: only a set has the method. *)
Definition py_add (key : string) (container : pyval) : outcome pyval :=
  match container with
  | PySet keys => Ok (PySet ({[key]} ∪ keys))
  | _ => Raise AttributeError
  end.

(** ** Classes and stack frames *)

(** How a class relates to the two base classes of the module. *)
Inductive ClassKind :=
  | Unrelated      (* not a subclass of WidgetBase *)
  | Ordinary       (* subclass of WidgetBase, not of BlendState *)
  | Blend.         (* subclass of BlendState *)

Record PyClass := {
  __name__ : string;
  kind : ClassKind;
}.

#[global] Instance ClassKind_eq_dec : EqDecision ClassKind.
Proof. solve_decision. Defined.
#[global] Instance PyClass_eq_dec : EqDecision PyClass.
Proof. solve_decision. Defined.

Definition issubclass_WidgetBase (c : PyClass) : bool :=
  match kind c with Unrelated => false | _ => true end.

Definition issubclass_BlendState (c : PyClass) : bool :=
  match kind c with Blend => true | _ => false end.

(** [isinstance(frame_class, ABC)]: a class object is an instance of its
    metaclass, never of [ABC] itself. *)
Definition isinstance_ABC (c : PyClass) : bool := false.

(** The part of an [inspect.FrameInfo] the constructor reads: the class
    of the local [self] when the frame has one, and the first line of
    [code_context], which is [None] when the source of the frame cannot
    be found. *)
Record FrameInfo := {
  f_self : option PyClass;
  code_context : option string;
}.

(** ** The sibling index *)

Section sibling.
(** [candidate i] is the prefix tried for index [i]. *)
Variable candidate : nat → string.
Variable used_key_prefixes : gset string.

(** The [while] loop of [__init__], started at [sibling_index]. *)
Fixpoint sibling_loop (fuel sibling_index : nat) : option nat :=
  match fuel with
  | 0 => None
  | S fuel =>
      if decide (candidate sibling_index ∈ used_key_prefixes)
      then sibling_loop fuel (S sibling_index)
      else Some sibling_index
  end.

(** The set is finite, so [size + 1] iterations are enough. *)
Definition find_sibling_index : outcome nat :=
  match sibling_loop (S (size used_key_prefixes)) 0 with
  | Some i => Ok i
  | None => OutOfFuel
  end.

(** [i] is the smallest index whose candidate is not in the set. *)
Definition least_free (i : nat) : Prop :=
  (candidate i ∉ used_key_prefixes) ∧
  (∀ j, j < i → candidate j ∈ used_key_prefixes).
End sibling.

(** ** The constructor *)

(** [f"[{named_instance}]"], or the empty string. *)
Definition named_part (named_instance : option string) (named_instance_used : bool) : string :=
  match named_instance with
  | None => ""
  | Some n => if named_instance_used then "" else "[" +:+ n +:+ "]"
  end.

(** [f"{frame_class.__name__}{named_part}[{sibling_index}].{self._key_prefix}"] *)
Definition indexed_prefix (name named key_prefix : string) (sibling_index : nat) : string :=
  name +:+ named +:+ "[" +:+ pretty sibling_index +:+ "]." +:+ key_prefix.

(** The state of the [for] loop over [inspect.stack()]. *)
Record walk_state := {
  named_instance_used : bool;
  _key_prefix : string;
  used : gset string;
}.

(** One frame that passed the tests: extend or replace the prefix. *)
Definition visit (named_instance : option string) (frame_class : PyClass)
    (w : walk_state) : outcome walk_state :=
  let named := named_part named_instance (named_instance_used w) in
  if issubclass_BlendState frame_class then
    Ok {| named_instance_used := true;
          _key_prefix := __name__ frame_class +:+ named;
          used := used w |}
  else
    sibling_index ← find_sibling_index
      (indexed_prefix (__name__ frame_class) named (_key_prefix w)) (used w);
    let p := indexed_prefix (__name__ frame_class) named (_key_prefix w) sibling_index in
    Ok {| named_instance_used := true;
          _key_prefix := p;
          used := {[p]} ∪ used w |}.

(** The loop body and the loop: frames without [self] are stepped over,
    the first [self] that is not a widget ends the walk. *)
Fixpoint walk (named_instance : option string) (frames : list FrameInfo)
    (w : walk_state) : outcome walk_state :=
  match frames with
  | [] => Ok w
  | frame :: frames =>
      match f_self frame with
      | None => walk named_instance frames w
      | Some frame_class =>
          if issubclass_WidgetBase frame_class then
            if isinstance_ABC frame_class then walk named_instance frames w
            else
              match code_context frame with
              | None => Raise TypeError
              | Some line =>
                  if str_contains "WidgetBase" line
                  then walk named_instance frames w
                  else w' ← visit named_instance frame_class w;
                       walk named_instance frames w'
              end
          else Ok w
      end
  end.

(** The frame of [WidgetBase.__init__] itself, the first one
    [inspect.stack()] returns: its [self] is the widget under construction
    and its current line is the [for] statement. *)
Definition init_frame (cls : PyClass) : FrameInfo :=
  {| f_self := Some cls;
     code_context := Some "        for frame in inspect.stack():" |}.

(** [WidgetBase.__init__(self, named_instance)] for a [self] of class
    [cls], called through the frames [callers] (innermost first).  Returns
    the prefix of the widget and the updated [used_key_prefixes]. *)
Definition __init__ (cls : PyClass) (named_instance : option string)
    (callers : list FrameInfo) (used_key_prefixes : gset string)
    : outcome (string * gset string) :=
  w ← walk named_instance (init_frame cls :: callers)
        {| named_instance_used := false; _key_prefix := "";
           used := used_key_prefixes |};
  Ok (_key_prefix w, used w).

(** ** The session store *)

(** [_PERSIST_STATE_KEY = f"{__name__}_PERSIST"], for the module
    [widget_base]. *)
Definition _PERSIST_STATE_KEY : string := "widget_base_PERSIST".

(** The two globals: [used_key_prefixes] and [st.session_state]. *)
Record State := {
  used_key_prefixes : gset string;
  session_state : gmap string pyval;
}.

(** The dictionary comprehension of [prepare]: the items whose key is in
    the persisted set, in the order of [items()]. *)
Fixpoint persisted_items (persist : pyval) (items : list (string * pyval))
    : outcome (list (string * pyval)) :=
  match items with
  | [] => Ok []
  | (key, value) :: items =>
      b ← py_in key persist;
      rest ← persisted_items persist items;
      Ok (if b : bool then (key, value) :: rest else rest)
  end.

(** [d.update(e)]: every item of [e] is assigned into [d]. *)
Definition dict_update (d : gmap string pyval) (e : list (string * pyval))
    : gmap string pyval :=
  foldl (λ d kv, <[kv.1 := kv.2]> d) d e.

(** [WidgetBase.prepare()] *)
Definition prepare (st : State) : outcome State :=
  let cleared := (∅ : gset string) in
  match session_state st !! _PERSIST_STATE_KEY with
  | None => Ok {| used_key_prefixes := cleared; session_state := session_state st |}
  | Some persist =>
      e ← persisted_items persist (map_to_list (session_state st));
      Ok {| used_key_prefixes := cleared;
            session_state := dict_update (session_state st) e |}
  end.

(** ** The accessors of a widget with prefix [key_prefix] *)

Section accessors.
Variable key_prefix : string.

Definition _full_key (key_name : string) : string := key_prefix +:+ key_name.

Definition _get_session_state (key_name : string) (ss : gmap string pyval) : pyval :=
  match ss !! _full_key key_name with
  | None => PyNone
  | Some v => v
  end.

Definition _set_session_state (key_name : string) (value : pyval)
    (ss : gmap string pyval) : gmap string pyval :=
  <[_full_key key_name := value]> ss.

(** The body of the loop of [_apply_session_state_defaults]. *)
Definition apply_default (ss : gmap string pyval) (kv : string * pyval)
    : outcome (gmap string pyval) :=
  let full_key := _full_key kv.1 in
  match ss !! full_key with
  | Some _ => Ok ss
  | None =>
      let ss1 :=
        match ss !! _PERSIST_STATE_KEY with
        | None => <[_PERSIST_STATE_KEY := PySet ∅]> ss
        | Some _ => ss
        end in
      match ss1 !! _PERSIST_STATE_KEY with
      | None => Raise KeyError
      | Some persist =>
          persist' ← py_add full_key persist;
          Ok (<[full_key := kv.2]> (<[_PERSIST_STATE_KEY := persist']> ss1))
      end
  end.

(** [defaults] is the list of items of the dictionary, in order. *)
Fixpoint _apply_session_state_defaults (defaults : list (string * pyval))
    (ss : gmap string pyval) : outcome (gmap string pyval) :=
  match defaults with
  | [] => Ok ss
  | kv :: defaults =>
      ss' ← apply_default ss kv;
      _apply_session_state_defaults defaults ss'
  end.
End accessors.

(** The set stored under [_PERSIST_STATE_KEY], empty when there is none. *)
Definition persistence_set (ss : gmap string pyval) : gset string :=
  match ss !! _PERSIST_STATE_KEY with
  | Some (PySet keys) => keys
  | _ => ∅
  end.

(** The data model of the store: the entry under [_PERSIST_STATE_KEY],
    when there is one, is a set. *)
Definition persist_is_set (ss : gmap string pyval) : bool :=
  match ss !! _PERSIST_STATE_KEY with
  | None | Some (PySet _) => true
  | Some _ => false
  end.

(** ** Shapes of the call stack *)

(** A frame the walk steps over without effect: no [self], or a widget
    method whose current line names [WidgetBase] (a constructor handing
    over to the base constructor, as in [WidgetBase.__init__(self)]). *)
Definition stepped_over (frame : FrameInfo) : bool :=
  match f_self frame with
  | None => true
  | Some c =>
      issubclass_WidgetBase c &&
      match code_context frame with
      | None => false
      | Some line => str_contains "WidgetBase" line
      end
  end.

(** The walk ends at [frame]: its [self] is not a widget. *)
Definition ends_walk (frame : FrameInfo) : bool :=
  match f_self frame with
  | None => false
  | Some c => negb (issubclass_WidgetBase c)
  end.

(** No frame of [frames] contributes to the prefix: each one is stepped
    over, up to the end of the stack or to a frame that ends the walk. *)
Fixpoint quiet (frames : list FrameInfo) : bool :=
  match frames with
  | [] => true
  | frame :: frames =>
      ends_walk frame || (stepped_over frame && quiet frames)
  end.

(** A frame the walk counts, running a method of an instance of [cls]. *)
Definition counted_for (cls : PyClass) (frame : FrameInfo) : bool :=
  match f_self frame, code_context frame with
  | Some c, Some line => bool_decide (c = cls) && negb (str_contains "WidgetBase" line)
  | _, _ => false
  end.

(** The only frames of [frames] that contribute run methods of instances
    of [cls]: the constructors of the new widget itself, when no other
    widget encloses the construction. *)
Fixpoint only_own (cls : PyClass) (frames : list FrameInfo) : bool :=
  match frames with
  | [] => true
  | frame :: frames =>
      ends_walk frame ||
      ((stepped_over frame || counted_for cls frame) && only_own cls frames)
  end.

(** A frame running a method of an instance of [cls] at source line
    [line]. *)
Definition method_frame (cls : PyClass) (line : string) : FrameInfo :=
  {| f_self := Some cls; code_context := Some line |}.

(** ** Sequences of constructions *)

Record construction := {
  c_class : PyClass;
  c_named : option string;
  c_callers : list FrameInfo;
}.

(** The constructions [cs] run one after the other on the shared
    [used_key_prefixes]; returns the prefixes in construction order. *)
Fixpoint construct_all (cs : list construction) (used_key_prefixes : gset string)
    : outcome (list string * gset string) :=
  match cs with
  | [] => Ok ([], used_key_prefixes)
  | c :: cs =>
      r ← __init__ (c_class c) (c_named c) (c_callers c) used_key_prefixes;
      rs ← construct_all cs r.2;
      Ok (r.1 :: rs.1, rs.2)
  end.

(** One execution of the script: [prepare], then the constructions. *)
Definition run_pass (cs : list construction) (st : State) : outcome (list string) :=
  st' ← prepare st;
  rs ← construct_all cs (used_key_prefixes st');
  Ok rs.1.

(** [B] is constructed from a method of [A] running [line]; the frames in
    between are stepped over and nothing outside [A] contributes. *)
Definition sibling_site (A B : PyClass) (named : option string) (c : construction) : Prop :=
  c_class c = B ∧ c_named c = named ∧
  ∃ skips line rest,
    c_callers c = skips ++ method_frame A line :: rest ∧
    forallb stepped_over skips = true ∧
    str_contains "WidgetBase" line = false ∧
    quiet rest = true.

(** ** The classes, stacks and stores of the scenarios *)

Module Scenario.
Definition A : PyClass := {| __name__ := "A"; kind := Ordinary |}.
Definition B : PyClass := {| __name__ := "B"; kind := Ordinary |}.
Definition Shared : PyClass := {| __name__ := "Shared"; kind := Blend |}.
Definition ScriptRunner : PyClass := {| __name__ := "ScriptRunner"; kind := Unrelated |}.

(** A constructor handing over to the base constructor. *)
Definition delegate (cls : PyClass) : FrameInfo :=
  method_frame cls "        WidgetBase.__init__(self)".

(** A constructor of a subclass of [BlendState] handing over to it. *)
Definition delegate_blend (cls : PyClass) : FrameInfo :=
  method_frame cls "        BlendState.__init__(self)".

(** The top level of the script, and the host that runs it. *)
Definition script : FrameInfo :=
  {| f_self := None; code_context := Some "widget = Widget()" |}.
Definition host : FrameInfo :=
  {| f_self := Some ScriptRunner; code_context := None |}.

(** [cls()] at the top level of the script. *)
Definition at_root (cls : PyClass) : construction :=
  {| c_class := cls; c_named := None;
     c_callers := [delegate cls; script; host] |}.

(** [cls()] in the constructor of [A], itself built at the top level. *)
Definition inside_A (cls : PyClass) : construction :=
  {| c_class := cls; c_named := None;
     c_callers := [delegate cls; method_frame A "        self.child = Child()";
                   script; host] |}.

(** [Shared()] at the top level, for a class with a constructor of its
    own that calls [BlendState.__init__]. *)
Definition shared_at_root : construction :=
  {| c_class := Shared; c_named := None;
     c_callers := [delegate Shared; delegate_blend Shared; script; host] |}.

Definition fresh_state : State :=
  {| used_key_prefixes := ∅; session_state := ∅ |}.

(** A store with one persisted and one unpersisted entry. *)
Definition store : gmap string pyval :=
  <[_PERSIST_STATE_KEY := PySet {["A[0].x"]}]>
    (<["A[0].x" := PyInt 7]> (<["other" := PyInt 2]> ∅)).
End Scenario.

Module Defaults.
(** The defaults of the scenario and the prefix of the widget. *)
Definition prefix : string := "A[0].".
Definition defaults : list (string * pyval) := [("x", PyInt 5); ("y", PyNone)].
End Defaults.

(** ** The other methods of [WidgetBase] and [BlendState] *)

(** [_session_state_for_this_widget]: the entries of the store whose key
    starts with the prefix of the widget. *)
Definition _session_state_for_this_widget (key_prefix : string)
    (ss : gmap string pyval) : gmap string pyval :=
  filter (λ kv, String.prefix key_prefix kv.1 = true) ss.

(** [BlendState.__init__(self)]: calls [WidgetBase.__init__(self)], with
    no [named_instance], from a frame of its own. *)
Definition BlendState__init__ (cls : PyClass) (callers : list FrameInfo)
    (used_key_prefixes : gset string) : outcome (string * gset string) :=
  __init__ cls None
    (method_frame cls "        WidgetBase.__init__(self)" :: callers)
    used_key_prefixes.

(** A frame whose [self] is a widget has its source line. *)
Definition has_source (frame : FrameInfo) : bool :=
  match f_self frame, code_context frame with
  | Some c, None => negb (issubclass_WidgetBase c)
  | _, _ => true
  end.

(** The frame does not run a method of a [BlendState] instance. *)
Definition not_blend (frame : FrameInfo) : bool :=
  match f_self frame with
  | Some c => negb (issubclass_BlendState c)
  | None => true
  end.

(** A construction of an ordinary widget with no [BlendState] frame on
    its stack. *)
Definition all_ordinary (c : construction) : bool :=
  bool_decide (kind (c_class c) = Ordinary) && forallb not_blend (c_callers c).

(** ** [TableChooser], the widget of [streamlit_app.py] *)

Definition TableChooser_class : PyClass :=
  {| __name__ := "TableChooser"; kind := Ordinary |}.

(** An argument of type [Optional[str]] as a value. *)
Definition of_optional (o : option string) : pyval :=
  match o with
  | None => PyNone
  | Some s => PyStr s
  end.

(** [x is None] *)
Definition is_None (v : pyval) : bool :=
  match v with
  | PyNone => true
  | _ => false
  end.

(** The double quote and the line break of the query texts. *)
Definition dq : string := String "034"%char EmptyString.
Definition nl : string := String "010"%char EmptyString.

(** The attributes of an instance.  [schemas] and [tables] are not set
    when the constructor returns early. *)
Record TableChooser := {
  tc_key_prefix : string;
  selected_database : pyval;
  selected_schema : pyval;
  selected_table : pyval;
  full_table_name : option string;
  show_selection : pyval;
  databases : list (option string);
  schemas : option (list (option string));
  tables : option (list (option string));
}.

Section table_chooser.
(** The data source: the [name] column of the rows that
    [session.sql(query).collect()] returns, or the exception it raises. *)
Variable query_names : string → outcome (list string).
(** The text Python gives for a set, whose order it does not fix. *)
Variable str_of_set : gset string → string.

(** [f"{value}"] *)
Definition py_str (value : pyval) : string :=
  match value with
  | PyNone => "None"
  | PyBool true => "True"
  | PyBool false => "False"
  | PyInt z => pretty z
  | PyStr s => s
  | PySet keys => str_of_set keys
  end.

(** The three query texts and the quoted table name. *)
Definition show_databases : string := "show databases".

Definition show_schemas (database : pyval) : string :=
  nl +:+ "                show schemas in database " +:+
  dq +:+ py_str database +:+ dq +:+ nl +:+ "                ".

Definition show_tables (database schema : pyval) : string :=
  nl +:+ "                show tables in schema " +:+
  dq +:+ py_str database +:+ dq +:+ "." +:+ dq +:+ py_str schema +:+ dq +:+
  nl +:+ "                ".

Definition quoted_table_name (database schema table : pyval) : string :=
  dq +:+ py_str database +:+ dq +:+ "." +:+
  dq +:+ py_str schema +:+ dq +:+ "." +:+
  dq +:+ py_str table +:+ dq.

(** [[None] + [r['name'] for r in ...]] *)
Definition with_None (names : list string) : list (option string) :=
  None :: (Some <$> names).

(** [TableChooser.__init__(self, initial_database, initial_schema,
    initial_table)], called through the frames [outer] (the caller of
    [TableChooser(...)] first). *)
Definition TableChooser__init__
    (initial_database initial_schema initial_table : option string)
    (outer : list FrameInfo) (st : State) : outcome (TableChooser * State) :=
  r ← __init__ TableChooser_class None
         (method_frame TableChooser_class "            WidgetBase.__init__(self)" :: outer)
         (used_key_prefixes st);
  let key_prefix := r.1 in
  ss1 ← _apply_session_state_defaults key_prefix
          [("database", of_optional initial_database);
           ("schema", of_optional initial_schema);
           ("table", of_optional initial_table)]
          (session_state st);
  let database := _get_session_state key_prefix "database" ss1 in
  let schema := _get_session_state key_prefix "schema" ss1 in
  let table := _get_session_state key_prefix "table" ss1 in
  ss2 ← _apply_session_state_defaults key_prefix
          [("show_selection",
            PyBool (is_None (of_optional initial_database)
                    || is_None (of_optional initial_schema)
                    || is_None (of_optional initial_table)))]
          ss1;
  let show := _get_session_state key_prefix "show_selection" ss2 in
  let st' := {| used_key_prefixes := r.2; session_state := ss2 |} in
  dbs ← query_names show_databases;
  if is_None database then
    Ok ({| tc_key_prefix := key_prefix;
           selected_database := database; selected_schema := schema;
           selected_table := table; full_table_name := None;
           show_selection := show; databases := with_None dbs;
           schemas := None; tables := None |}, st')
  else
    schs ← query_names (show_schemas database);
    if is_None schema then
      Ok ({| tc_key_prefix := key_prefix;
             selected_database := database; selected_schema := schema;
             selected_table := table; full_table_name := None;
             show_selection := show; databases := with_None dbs;
             schemas := Some (with_None schs); tables := None |}, st')
    else
      tbls ← query_names (show_tables database schema);
      Ok ({| tc_key_prefix := key_prefix;
             selected_database := database; selected_schema := schema;
             selected_table := table;
             full_table_name := Some (quoted_table_name database schema table);
             show_selection := show; databases := with_None dbs;
             schemas := Some (with_None schs); tables := Some (with_None tbls) |}, st').
End table_chooser.

(** The two handlers: each writes the field [show_selection]. *)
Definition handle_change_selection (self : TableChooser)
    (ss : gmap string pyval) : gmap string pyval :=
  _set_session_state (tc_key_prefix self) "show_selection" (PyBool true) ss.

Definition handle_complete_selection (self : TableChooser)
    (ss : gmap string pyval) : gmap string pyval :=
  _set_session_state (tc_key_prefix self) "show_selection" (PyBool false) ss.

Module Chooser.
(** A data source that knows one database, one schema and one table,
    and a text for sets. *)
Definition query_names (query : string) : outcome (list string) :=
  Ok (if String.prefix "show databases" query then ["SCRATCH"]
      else if str_contains "show schemas" query then ["PUBLIC"]
      else ["CUSTOMERS"]).
Definition str_of_set (keys : gset string) : string := "{...}".

(** [TableChooser(...)] at the top level of the script. *)
Definition top_level : list FrameInfo := [Scenario.script; Scenario.host].
End Chooser.

(** * Properties *)

(** Membership goals over unions and singletons. *)
Ltac set_auto := set_unfold; intuition (subst; eauto).

(** ** Strings as lists of characters *)

Section strings.
Abbreviation chars := String.list_ascii_of_string.

Lemma string_app_cons (a : Ascii.ascii) (s t : string) :
  String a s +:+ t = String a (s +:+ t).
Proof. reflexivity. Qed.

Lemma chars_app (s1 s2 : string) : chars (s1 +:+ s2) = chars s1 ++ chars s2.
Proof.
  induction s1 as [|a s1 IH]; [done|].
  rewrite string_app_cons. cbn. by rewrite IH.
Qed.

Lemma chars_inj (s1 s2 : string) : chars s1 = chars s2 → s1 = s2.
Proof.
  intros H. rewrite <-(String.string_of_list_ascii_of_string s1),
    <-(String.string_of_list_ascii_of_string s2). by rewrite H.
Qed.

Lemma string_app_inv_tail (s1 s2 t : string) : s1 +:+ t = s2 +:+ t → s1 = s2.
Proof.
  intros H. apply chars_inj. apply (f_equal chars) in H.
  rewrite !chars_app in H. by apply app_inv_tail in H.
Qed.

Lemma string_app_nil_r (s : string) : s +:+ "" = s.
Proof. induction s as [|a s IH]; [done|]. by rewrite string_app_cons, IH. Qed.

Lemma string_app_assoc (s1 s2 s3 : string) : (s1 +:+ s2) +:+ s3 = s1 +:+ s2 +:+ s3.
Proof. induction s1 as [|a s1 IH]; [done|]. by rewrite !string_app_cons, IH. Qed.

(** The decimal digits of a number contain no bracket. *)
Lemma pretty_N_go_chars (x : N) (s : string) (c : Ascii.ascii) :
  c ∈ chars (pretty_N_go x s) →
  c ∈ chars "0123456789" ∨ c ∈ chars s.
Proof.
  revert s. induction (N.lt_wf_0 x) as [x _ IH]; intros s Hc.
  destruct (decide (0 < x)%N) as [Hx|Hx].
  - rewrite pretty_N_go_step in Hc by done.
    apply IH in Hc; [|by apply N.div_lt].
    destruct Hc as [Hc|Hc]; [by left|].
    cbn in Hc. apply elem_of_cons in Hc as [->|Hc]; [|by right].
    left. pose proof (N.mod_lt x 10) as Hlt.
    assert (∃ d : nat, d < 10 ∧ (x `mod` 10)%N = N.of_nat d) as (d & ? & ->).
    { exists (N.to_nat (x `mod` 10)). lia. }
    do 10 (destruct d as [|d]; [cbn; by repeat constructor|]). lia.
  - assert (x = 0%N) as -> by lia. rewrite pretty_N_go_0 in Hc. by right.
Qed.

Lemma pretty_nat_chars (n : nat) (c : Ascii.ascii) :
  c ∈ chars (pretty n) → c ∈ chars "0123456789".
Proof.
  unfold pretty, pretty_nat, pretty, pretty_N. case_decide.
  - cbn. intros ->%list_elem_of_singleton. by repeat constructor.
  - intros [?|Hc]%pretty_N_go_chars; [done|]. by apply elem_of_nil in Hc.
Qed.

Lemma pretty_nat_no_bracket (n : nat) : "["%char ∉ chars (pretty n).
Proof.
  intros Hc%pretty_nat_chars. cbn in Hc.
  repeat (apply elem_of_cons in Hc as [Hc|Hc]; [discriminate Hc|]).
  by apply elem_of_nil in Hc.
Qed.
End strings.

(** ** Candidates and the sibling index *)

Lemma indexed_prefix_inj (name named key_prefix : string) :
  Inj (=) (=) (indexed_prefix name named key_prefix).
Proof.
  intros i j H. unfold indexed_prefix in H.
  do 3 apply String.app_inj in H.
  rewrite <-!string_app_assoc in H.
  do 2 apply string_app_inv_tail in H. by apply (inj pretty) in H.
Qed.

Section sibling_facts.
Context (candidate : nat → string) (used0 : gset string).

Lemma sibling_loop_some (fuel i r : nat) :
  sibling_loop candidate used0 fuel i = Some r →
  i ≤ r ∧ (candidate r ∉ used0) ∧ ∀ j, i ≤ j < r → candidate j ∈ used0.
Proof.
  revert i. induction fuel as [|fuel IH]; intros i; [done|]. cbn.
  case_decide as Hi.
  - intros (? & ? & Hlt)%IH. split_and!; [lia|done|].
    intros j ?. destruct (decide (j = i)) as [->|]; [done|]. apply Hlt. lia.
  - intros [= <-]. split_and!; [lia|done|]. intros j ?. lia.
Qed.

Lemma sibling_loop_none (fuel i : nat) :
  sibling_loop candidate used0 fuel i = None →
  ∀ j, i ≤ j < i + fuel → candidate j ∈ used0.
Proof.
  revert i. induction fuel as [|fuel IH]; intros i; cbn.
  - intros _ j ?. lia.
  - case_decide as Hi; [|done]. intros Hn j ?.
    destruct (decide (j = i)) as [->|]; [done|]. apply (IH _ Hn). lia.
Qed.

(** The loop ends: the candidates are pairwise different and the set
    is finite. *)
Lemma find_sibling_index_least :
  Inj (=) (=) candidate →
  ∃ i, find_sibling_index candidate used0 = Ok i ∧ least_free candidate used0 i.
Proof.
  intros Hinj. unfold find_sibling_index.
  destruct (sibling_loop _ _ _ _) as [r|] eqn:Hloop.
  - exists r. split; [done|].
    apply sibling_loop_some in Hloop as (_ & ? & Hlt).
    split; [done|]. intros j ?. apply Hlt. lia.
  - exfalso.
    pose proof (sibling_loop_none _ _ Hloop) as Hall.
    set (n := size used0) in *.
    set (l := candidate <$> seq 0 (S n)).
    assert (NoDup l) as Hnd.
    { apply (NoDup_fmap_2 _). apply NoDup_seq. }
    assert (list_to_set l ⊆ used0) as Hsub.
    { intros x [y [-> Hy%elem_of_seq]]%elem_of_list_to_set%list_elem_of_fmap.
      apply Hall. lia. }
    apply subseteq_size in Hsub.
    rewrite size_list_to_set in Hsub by done.
    unfold l in Hsub. rewrite length_fmap, length_seq in Hsub. lia.
Qed.

Lemma least_free_unique (i j : nat) :
  least_free candidate used0 i → least_free candidate used0 j → i = j.
Proof.
  intros [Hi Hilt] [Hj Hjlt].
  destruct (Nat.lt_trichotomy i j) as [?|[?|?]]; [|done|].
  - destruct Hi. by apply Hjlt.
  - destruct Hj. by apply Hilt.
Qed.

Lemma find_sibling_index_eq (i : nat) :
  Inj (=) (=) candidate →
  least_free candidate used0 i →
  find_sibling_index candidate used0 = Ok i.
Proof.
  intros Hinj Hi. destruct (find_sibling_index_least Hinj) as (j & -> & Hj).
  f_equal. by eapply least_free_unique.
Qed.
End sibling_facts.

(** ** A segment against a chained prefix *)

Section chained.
Abbreviation chars := String.list_ascii_of_string.

Lemma chars_indexed_prefix (name named key_prefix : string) (i : nat) :
  chars (indexed_prefix name named key_prefix i)
  = chars name ++ chars named ++ "["%char :: chars (pretty i)
      ++ "]"%char :: "."%char :: chars key_prefix.
Proof. unfold indexed_prefix. by rewrite !chars_app. Qed.

(** A list that ends with the digits [K] cannot also end with a bracket
    followed by fewer characters. *)
Lemma digits_not_after_bracket (K J l1 l2 : list ascii) :
  "["%char ∉ K → length J < length K →
  l1 ++ K ≠ l2 ++ "["%char :: J.
Proof.
  intros HK Hlen Heq. apply app_eq_app in Heq as [l [[-> HJ]|[-> HJ]]].
  - destruct l as [|a l].
    + cbn in HJ. subst K. apply HK. constructor.
    + cbn in HJ. injection HJ as _ HJ. subst J. rewrite length_app in Hlen. lia.
  - subst K. apply HK. apply elem_of_app. right. constructor.
Qed.

(** The own segment of a widget, with any index, is never the prefix
    chained under a parent segment. *)
Lemma own_segment_not_chained (parent name named : string) (k j x : nat) :
  indexed_prefix name named "" k
  ≠ indexed_prefix parent "" (indexed_prefix name named "" j) x.
Proof.
  intros Heq. apply (f_equal chars) in Heq.
  rewrite !chars_indexed_prefix in Heq. cbn [chars] in Heq.
  pose proof (f_equal length Heq) as Hlen.
  repeat (rewrite ?length_app in Hlen; cbn [length] in Hlen).
  set (K := chars (pretty k)) in *. set (J := chars (pretty j)) in *.
  set (tail := ["]"%char; "."%char]) in *.
  apply (digits_not_after_bracket K J
           (chars name ++ chars named ++ ["["%char])
           (chars parent ++ "["%char :: chars (pretty x) ++ tail
              ++ chars name ++ chars named));
    [apply pretty_nat_no_bracket|lia|].
  apply (app_inv_tail tail).
  repeat first [rewrite <-app_assoc | progress cbn [app]].
  repeat first [rewrite <-app_assoc in Heq | progress cbn [app] in Heq].
  exact Heq.
Qed.
End chained.

(** ** The walk over the stack *)

Lemma bind_Ok {A B : Type} (a : A) (f : A → outcome B) : Ok a ≫= f = f a.
Proof. reflexivity. Qed.

Lemma named_part_used (named : option string) : named_part named true = "".
Proof. by destruct named. Qed.

Lemma walk_stepped_over (named : option string) (frame : FrameInfo)
    (frames : list FrameInfo) (w : walk_state) :
  stepped_over frame = true →
  walk named (frame :: frames) w = walk named frames w.
Proof.
  unfold stepped_over. cbn. destruct (f_self frame) as [c|]; [|done].
  intros [-> Hline]%andb_true_iff. unfold isinstance_ABC.
  destruct (code_context frame) as [line|]; [|done]. by rewrite Hline.
Qed.

Lemma walk_skips (named : option string) (skips frames : list FrameInfo)
    (w : walk_state) :
  forallb stepped_over skips = true →
  walk named (skips ++ frames) w = walk named frames w.
Proof.
  induction skips as [|frame skips IH]; [done|].
  intros [Hf Hs]%andb_true_iff. rewrite <-app_comm_cons.
  rewrite walk_stepped_over by done. auto.
Qed.

Lemma walk_quiet (named : option string) (frames : list FrameInfo) (w : walk_state) :
  quiet frames = true → walk named frames w = Ok w.
Proof.
  induction frames as [|frame frames IH]; [done|]. cbn [quiet].
  intros [Hend|[Hf Hq]%andb_true_iff]%orb_true_iff.
  - unfold ends_walk in Hend. cbn. destruct (f_self frame) as [c|]; [|done].
    by apply negb_true_iff in Hend as ->.
  - rewrite walk_stepped_over by done. auto.
Qed.

Lemma walk_method_frame (named : option string) (cls : PyClass) (line : string)
    (frames : list FrameInfo) (w : walk_state) :
  issubclass_WidgetBase cls = true →
  str_contains "WidgetBase" line = false →
  walk named (method_frame cls line :: frames) w
  = visit named cls w ≫= walk named frames.
Proof. intros Hc Hline. cbn. by rewrite Hc, Hline. Qed.

Lemma walk_init_frame (named : option string) (cls : PyClass)
    (frames : list FrameInfo) (w : walk_state) :
  issubclass_WidgetBase cls = true →
  walk named (init_frame cls :: frames) w
  = visit named cls w ≫= walk named frames.
Proof. intros Hc. by apply walk_method_frame. Qed.

Lemma visit_blend (named : option string) (cls : PyClass) (w : walk_state) :
  issubclass_BlendState cls = true →
  visit named cls w
  = Ok {| named_instance_used := true;
          _key_prefix := __name__ cls +:+ named_part named (named_instance_used w);
          used := used w |}.
Proof. intros Hc. unfold visit. by rewrite Hc. Qed.

Lemma visit_ordinary (named : option string) (cls : PyClass)
    (b : bool) (p : string) (u : gset string) :
  issubclass_BlendState cls = false →
  let candidate := indexed_prefix (__name__ cls) (named_part named b) p in
  ∃ i, least_free candidate u i ∧
       visit named cls {| named_instance_used := b; _key_prefix := p; used := u |}
       = Ok {| named_instance_used := true;
               _key_prefix := candidate i;
               used := {[candidate i]} ∪ u |}.
Proof.
  intros Hc candidate. unfold visit. rewrite Hc.
  destruct (find_sibling_index_least candidate u) as (i & Hi & Hleast).
  { apply indexed_prefix_inj. }
  exists i. split; [done|]. cbn [named_instance_used _key_prefix used].
  fold candidate. by rewrite Hi.
Qed.

Lemma ordinary_is_widget (cls : PyClass) :
  kind cls = Ordinary →
  issubclass_WidgetBase cls = true ∧ issubclass_BlendState cls = false.
Proof. unfold issubclass_WidgetBase, issubclass_BlendState. by intros ->. Qed.

Lemma blend_is_widget (cls : PyClass) :
  issubclass_BlendState cls = true → issubclass_WidgetBase cls = true.
Proof. unfold issubclass_WidgetBase, issubclass_BlendState. by destruct (kind cls). Qed.

(** The constructor of an ordinary widget reached from a method of an
    ordinary widget, nothing else contributing. *)
Lemma init_under_ordinary (A B : PyClass) (named : option string)
    (skips rest : list FrameInfo) (line : string) (used0 : gset string) :
  kind A = Ordinary → kind B = Ordinary →
  forallb stepped_over skips = true →
  str_contains "WidgetBase" line = false →
  quiet rest = true →
  let own := indexed_prefix (__name__ B) (named_part named false) "" in
  ∃ i j,
    least_free own used0 i ∧
    least_free (indexed_prefix (__name__ A) "" (own i)) ({[own i]} ∪ used0) j ∧
    __init__ B named (skips ++ method_frame A line :: rest) used0
    = Ok (indexed_prefix (__name__ A) "" (own i) j,
          {[indexed_prefix (__name__ A) "" (own i) j]} ∪ ({[own i]} ∪ used0)).
Proof.
  intros [HA HA']%ordinary_is_widget [HB HB']%ordinary_is_widget Hskips Hline Hrest own.
  unfold __init__. rewrite walk_init_frame by done.
  destruct (visit_ordinary named B false "" used0 HB') as (i & Hi & ->).
  fold own in Hi |- *.
  rewrite bind_Ok, walk_skips, walk_method_frame by done.
  destruct (visit_ordinary named A true (own i) ({[own i]} ∪ used0) HA')
    as (j & Hj & ->).
  rewrite named_part_used in Hj |- *.
  rewrite !bind_Ok, walk_quiet by done.
  exists i, j. by split_and!.
Qed.

(** ** Prefixes *)

(** C9, as the code has it: a widget constructed with no enclosing widget
    frame on the stack, whose own constructor frames hand over on a
    source line that names [WidgetBase] (every caller is stepped over, up
    to the end of the stack or the first [self] that is not a widget),
    gets a prefix and no exception: its own type name, the optional
    [named_instance] tag and, for an ordinary widget, the smallest free
    sibling index and a dot, put in front of the empty string. *)
Theorem root_prefix_without_enclosing (cls : PyClass) (named : option string)
    (callers : list FrameInfo) (used0 : gset string) :
  issubclass_WidgetBase cls = true →
  quiet callers = true →
  ∃ p used',
    __init__ cls named callers used0 = Ok (p, used') ∧
    (issubclass_BlendState cls = true →
       p = __name__ cls +:+ named_part named false ∧ used' = used0) ∧
    (issubclass_BlendState cls = false →
       ∃ i, least_free (indexed_prefix (__name__ cls) (named_part named false) "") used0 i ∧
            p = indexed_prefix (__name__ cls) (named_part named false) "" i ∧
            used' = {[p]} ∪ used0).
Proof.
  intros Hw Hq. unfold __init__. rewrite walk_init_frame by done.
  destruct (issubclass_BlendState cls) eqn:Hb.
  - rewrite visit_blend, bind_Ok, walk_quiet by done.
    eexists _, _. split; [done|]. by split.
  - destruct (visit_ordinary named cls false "" used0 Hb) as (i & Hi & ->).
    rewrite bind_Ok, walk_quiet by done.
    eexists _, _. split; [done|]. split; [done|]. intros _. by exists i.
Qed.

Lemma root_prefix_without_enclosing_witness :
  ∃ p used',
    __init__ Scenario.A None (c_callers (Scenario.at_root Scenario.A)) ∅ = Ok (p, used') ∧
    (issubclass_BlendState Scenario.A = true →
       p = __name__ Scenario.A +:+ named_part None false ∧ used' = ∅) ∧
    (issubclass_BlendState Scenario.A = false →
       ∃ i, least_free (indexed_prefix (__name__ Scenario.A) (named_part None false) "") ∅ i ∧
            p = indexed_prefix (__name__ Scenario.A) (named_part None false) "" i ∧
            used' = {[p]} ∪ ∅).
Proof.
  apply (root_prefix_without_enclosing Scenario.A None
           (c_callers (Scenario.at_root Scenario.A)) ∅); reflexivity.
Defined.

(** C9, where the code departs from it: a widget at the top level, with
    no enclosing widget.  A constructor of the widget that hands over
    with [super().__init__()] is counted like an enclosing frame and adds
    a second segment; a constructor frame whose source line cannot be
    found makes [frame.code_context[0]] raise [TypeError]. *)
Lemma root_constructor_frames_counterexample :
  __init__ Scenario.A None
    [method_frame Scenario.A "        super().__init__()";
     Scenario.script; Scenario.host] ∅
  = Ok ("A[0].A[0].", {["A[0].A[0]."; "A[0]."]}) ∧
  "A[0].A[0]." ≠ "A[0]." ∧
  __init__ Scenario.A None
    [{| f_self := Some Scenario.A; code_context := None |};
     Scenario.script; Scenario.host] ∅
  = Raise TypeError.
Proof. split; [vm_compute; reflexivity|]. split; [discriminate|reflexivity]. Qed.

(** The root prefix of the scenario, evaluated. *)
Example root_A :
  __init__ Scenario.A None (c_callers (Scenario.at_root Scenario.A)) ∅
  = Ok ("A[0].", {["A[0]."]}).
Proof. vm_compute. reflexivity. Qed.

(** C3, as the code has it: an ordinary widget [B] constructed from a
    method of an ordinary widget [A] gets the segment of [A] in front of
    its own segment.  The own segment is the type name, the optional tag
    and the smallest index [i] whose candidate [B[tag][i].] is not
    registered; the segment [A[j].] is then put in front, with [j] the
    smallest index whose candidate is not registered.  Both candidates are
    registered. *)
Theorem prefix_under_ordinary_parent (A B : PyClass) (named : option string)
    (skips rest : list FrameInfo) (line : string) (used0 : gset string) :
  kind A = Ordinary → kind B = Ordinary →
  forallb stepped_over skips = true →
  str_contains "WidgetBase" line = false →
  quiet rest = true →
  ∃ i j,
    let own := __name__ B +:+ named_part named false +:+ "[" +:+ pretty i +:+ "]." +:+ "" in
    let p := __name__ A +:+ "" +:+ "[" +:+ pretty j +:+ "]." +:+ own in
    least_free (indexed_prefix (__name__ B) (named_part named false) "") used0 i ∧
    least_free (indexed_prefix (__name__ A) "" own) ({[own]} ∪ used0) j ∧
    __init__ B named (skips ++ method_frame A line :: rest) used0
    = Ok (p, {[p]} ∪ ({[own]} ∪ used0)).
Proof.
  intros HA HB Hskips Hline Hrest.
  destruct (init_under_ordinary A B named skips rest line used0)
    as (i & j & Hi & Hj & Heq); [done..|].
  exists i, j. by split_and!.
Qed.

Lemma prefix_under_ordinary_parent_witness :
  ∃ i j,
    let own := "B" +:+ "" +:+ "[" +:+ pretty i +:+ "]." +:+ "" in
    let p := "A" +:+ "" +:+ "[" +:+ pretty j +:+ "]." +:+ own in
    least_free (indexed_prefix "B" "" "") {["A[0]."]} i ∧
    least_free (indexed_prefix "A" "" own) ({[own]} ∪ {["A[0]."]}) j ∧
    __init__ Scenario.B None (c_callers (Scenario.inside_A Scenario.B)) {["A[0]."]}
    = Ok (p, {[p]} ∪ ({[own]} ∪ {["A[0]."]})).
Proof.
  apply (prefix_under_ordinary_parent Scenario.A Scenario.B None
           [Scenario.delegate Scenario.B] [Scenario.script; Scenario.host]
           "        self.child = Child()" {["A[0]."]}); reflexivity.
Defined.

(** C3, the scenario of the claim: [A] at the top level, then [B] twice
    in the constructor of [A].  The prefixes have the segment of [A]
    first, not the segment of [B]. *)
Lemma child_segment_first_counterexample :
  run_pass [Scenario.at_root Scenario.A;
            Scenario.inside_A Scenario.B; Scenario.inside_A Scenario.B]
    Scenario.fresh_state
  = Ok ["A[0]."; "A[0].B[0]."; "A[0].B[1]."] ∧
  ["A[0]."; "A[0].B[0]."; "A[0].B[1]."] ≠ ["A[0]."; "B[0].A[0]."; "B[1].A[0]."].
Proof. split; [vm_compute; reflexivity|discriminate]. Qed.

(** A widget of a [BlendState] class with no enclosing widget frame:
    the frames that are counted, if any, are those of its own
    constructors, and each of them sets the prefix to the type name. *)
Lemma stepped_over_not_end (frame : FrameInfo) :
  stepped_over frame = true → ends_walk frame = false.
Proof.
  unfold stepped_over, ends_walk. destruct (f_self frame) as [c|]; [|done].
  by intros [-> _]%andb_true_iff.
Qed.

Lemma walk_only_own_blend (cls : PyClass) (named : option string)
    (frames : list FrameInfo) (p : string) (u : gset string) :
  issubclass_BlendState cls = true →
  only_own cls frames = true →
  walk named frames {| named_instance_used := true; _key_prefix := p; used := u |}
  = Ok {| named_instance_used := true;
          _key_prefix := if quiet frames then p else __name__ cls;
          used := u |}.
Proof.
  intros Hb. revert p. induction frames as [|frame frames IH]; intros p; [done|].
  cbn [only_own quiet].
  intros [Hend|[[Hstep|Hown]%orb_true_iff Hrest]%andb_true_iff]%orb_true_iff.
  - rewrite Hend. cbn [orb].
    rewrite (walk_quiet named (frame :: frames)); [done|]. cbn. by rewrite Hend.
  - rewrite walk_stepped_over, Hstep, IH by done. cbn [andb].
    by rewrite (stepped_over_not_end frame Hstep).
  - unfold counted_for in Hown. destruct frame as [[c|] [line|]]; try done.
    cbn in Hown. apply andb_true_iff in Hown as [->%bool_decide_eq_true Hline].
    apply negb_true_iff in Hline.
    change {| f_self := Some cls; code_context := Some line |}
      with (method_frame cls line).
    rewrite walk_method_frame; [|by apply blend_is_widget|done].
    rewrite visit_blend by done. cbn [named_instance_used].
    rewrite named_part_used, string_app_nil_r, bind_Ok, IH by done.
    unfold ends_walk, stepped_over, method_frame. cbn.
    rewrite (blend_is_widget cls Hb), Hline. cbn. by destruct (quiet frames).
Qed.

Lemma blend_prefix_without_enclosing (cls : PyClass) (named : option string)
    (callers : list FrameInfo) (used0 : gset string) :
  issubclass_BlendState cls = true →
  only_own cls callers = true →
  __init__ cls named callers used0
  = Ok (if quiet callers then __name__ cls +:+ named_part named false
        else __name__ cls, used0).
Proof.
  intros Hb Hown. unfold __init__.
  rewrite walk_init_frame by by apply blend_is_widget.
  rewrite visit_blend, bind_Ok by done. cbn [named_instance_used].
  by rewrite (walk_only_own_blend cls), bind_Ok.
Qed.

(** C2, as the code has it: two instances of a [BlendState] class built
    with no enclosing widget frame on the stack (the frames counted, if
    any, are those of the widget's own constructors, the same way in both
    constructions) and the same [named_instance] get the same prefix: the
    type name, with the tag when no constructor frame is counted, and no
    sibling index.  Nothing is registered. *)
Theorem blend_instances_share_prefix (cls : PyClass) (named : option string)
    (callers1 callers2 : list FrameInfo) (used1 used2 : gset string) :
  issubclass_BlendState cls = true →
  only_own cls callers1 = true →
  only_own cls callers2 = true →
  quiet callers1 = quiet callers2 →
  ∃ p,
    __init__ cls named callers1 used1 = Ok (p, used1) ∧
    __init__ cls named callers2 used2 = Ok (p, used2) ∧
    p = __name__ cls +:+ (if quiet callers1 then named_part named false else "").
Proof.
  intros Hb Hown1 Hown2 Hq.
  rewrite !blend_prefix_without_enclosing by done. rewrite <-Hq.
  eexists. split; [done|]. split; [done|].
  destruct (quiet callers1); [done|]. by rewrite string_app_nil_r.
Qed.

Lemma blend_instances_share_prefix_witness :
  ∃ p,
    __init__ Scenario.Shared None (c_callers Scenario.shared_at_root) ∅ = Ok (p, ∅) ∧
    __init__ Scenario.Shared None (c_callers Scenario.shared_at_root) {["A[0]."]}
    = Ok (p, {["A[0]."]}) ∧
    p = "Shared" +:+ "".
Proof.
  apply (blend_instances_share_prefix Scenario.Shared None
           (c_callers Scenario.shared_at_root) (c_callers Scenario.shared_at_root)
           ∅ {["A[0]."]}); reflexivity.
Defined.

(** C2, where the code departs from it: two instances of a [BlendState]
    class built in the constructor of the ordinary widget [A].  The walk
    goes on past the frames of the new widget, puts the segment of [A] in
    front and registers the result, so the second instance finds the
    prefix of the first one taken. *)
Lemma blend_under_ordinary_counterexample :
  run_pass [Scenario.at_root Scenario.A;
            Scenario.inside_A Scenario.Shared; Scenario.inside_A Scenario.Shared]
    Scenario.fresh_state
  = Ok ["A[0]."; "A[0].Shared"; "A[1].Shared"] ∧
  "A[0].Shared" ≠ "A[1].Shared" ∧
  "A[0].Shared" ≠ "Shared".
Proof. split; [vm_compute; reflexivity|]. by split. Qed.

(** ** Siblings *)

Section siblings.
Context (A B : PyClass) (named : option string).
Hypothesis A_ordinary : kind A = Ordinary.
Hypothesis B_ordinary : kind B = Ordinary.

Let own : nat → string :=
  indexed_prefix (__name__ B) (named_part named false) "".
Let chain (j : nat) (p : string) : string :=
  indexed_prefix (__name__ A) "" p j.

Lemma init_at_sibling_site (c : construction) (used0 : gset string) :
  sibling_site A B named c →
  ∃ i j,
    least_free own used0 i ∧
    least_free (indexed_prefix (__name__ A) "" (own i)) ({[own i]} ∪ used0) j ∧
    __init__ (c_class c) (c_named c) (c_callers c) used0
    = Ok (chain j (own i), {[chain j (own i)]} ∪ ({[own i]} ∪ used0)).
Proof.
  intros (-> & -> & skips & line & rest & -> & Hskips & Hline & Hrest).
  by apply init_under_ordinary.
Qed.

(** The constructions in a row: the prefixes are new to the registry and
    pairwise distinct, the own indices grow, and they are [k], [k+1], ...
    when exactly the own segments [0 .. k-1] are registered before. *)
Lemma construct_siblings (cs : list construction) (used0 : gset string) :
  Forall (sibling_site A B named) cs →
  ∃ ps (idx : list nat) used',
    construct_all cs used0 = Ok (ps, used') ∧
    used0 ⊆ used' ∧
    (∀ p, p ∈ ps → (p ∉ used0) ∧ p ∈ used') ∧
    NoDup ps ∧
    length idx = length cs ∧
    (∀ n, n < length cs →
       ∃ i j, idx !! n = Some i ∧ ps !! n = Some (chain j (own i))) ∧
    (∀ i, i ∈ idx → own i ∉ used0) ∧
    (∀ n n' i i', n < n' → idx !! n = Some i → idx !! n' = Some i' → i < i') ∧
    (∀ k, (∀ i, own i ∈ used0 ↔ i < k) → idx = seq k (length cs)).
Proof.
  intros Hcs. revert used0.
  induction Hcs as [|c cs Hc _ IH]; intros used0.
  { exists [], [], used0.
    split_and!; [done|done|by intros ? ?%elem_of_nil|constructor|done| | | |done].
    - cbn. lia.
    - by intros ? ?%elem_of_nil.
    - intros ? ? ? ? _ Hn. by rewrite lookup_nil in Hn. }
  destruct (init_at_sibling_site c used0 Hc) as (i0 & j & Hi & Hj & Hinit).
  set (p := chain j (own i0)) in *.
  set (used1 := {[p]} ∪ ({[own i0]} ∪ used0)) in *.
  destruct (IH used1)
    as (ps & idx & used' & Hall & Hsub & Hps & Hnd & Hlen & Hnth & Hfresh & Hinc & Hseq).
  assert (p ∉ used0) as Hp0.
  { destruct Hj as [Hj _]. set_auto. }
  assert (∀ i, i ∈ idx → i0 < i) as Hlater.
  { intros i Hin. apply Hfresh in Hin. apply Nat.lt_nge. intros Hle.
    apply Hin. destruct (decide (i = i0)) as [->|]; [set_auto|].
    destruct Hi as [_ Hlt]. unfold used1.
    do 2 (apply elem_of_union; right). apply Hlt. lia. }
  exists (p :: ps), (i0 :: idx), used'. cbn [construct_all].
  rewrite Hinit, bind_Ok. cbn [fst snd]. fold used1. rewrite Hall, bind_Ok.
  cbn [fst snd]. split_and!.
  - done.
  - set_auto.
  - intros q [->|Hq]%elem_of_cons; [set_auto|].
    destruct (Hps q Hq). set_auto.
  - constructor; [|done]. intros Hq. destruct (Hps p Hq) as [Hn _].
    apply Hn. set_auto.
  - cbn. by rewrite Hlen.
  - intros [|n] ?.
    + by exists i0, j.
    + apply Hnth. cbn in *. lia.
  - intros i [->|Hin]%elem_of_cons; [by destruct Hi|].
    apply Hfresh in Hin. set_auto.
  - intros [|n] [|n'] i i' Hlt Hn Hn'; try lia.
    + injection Hn as ->. apply Hlater. by eapply list_elem_of_lookup_2.
    + apply (Hinc n n'); [lia|done..].
  - intros k Hinv. cbn [length seq].
    assert (i0 = k) as ->.
    { apply (least_free_unique own used0); [done|]. split.
      - rewrite Hinv. lia.
      - intros n ?. by apply Hinv. }
    f_equal. apply Hseq. intros n. unfold used1.
    rewrite !elem_of_union, !elem_of_singleton, Hinv. split.
    + intros [Hn|[Hn|?]]; [|apply indexed_prefix_inj in Hn|]; [|lia..].
      by apply own_segment_not_chained in Hn.
    + intros ?. destruct (decide (n = k)) as [->|]; [by right; left|].
      right; right. lia.
Qed.
End siblings.

(** C4, as the code has it: constructions of the ordinary class [B] from
    methods of the ordinary widget [A].  The prefixes are pairwise
    distinct and the indices of the own segments grow in construction
    order; the own segment of the [k]-th construction carries the index
    [k] when no own segment [B[tag][i].] is registered before the first
    of them (no [B] with that tag was built earlier in the execution). *)
Theorem sibling_prefixes_distinct_in_order (A B : PyClass) (named : option string)
    (cs : list construction) (used0 : gset string) :
  kind A = Ordinary → kind B = Ordinary →
  Forall (sibling_site A B named) cs →
  ∃ ps (idx : list nat) used',
    construct_all cs used0 = Ok (ps, used') ∧
    NoDup ps ∧
    (∀ k, k < length cs →
       ∃ i j : nat,
         idx !! k = Some i ∧
         ps !! k
         = Some (__name__ A +:+ "" +:+ "[" +:+ pretty j +:+ "]." +:+
                 __name__ B +:+ named_part named false +:+ "[" +:+ pretty i +:+ "]." +:+ "")) ∧
    (∀ k k' i i', k < k' → idx !! k = Some i → idx !! k' = Some i' → i < i') ∧
    ((∀ i, indexed_prefix (__name__ B) (named_part named false) "" i ∉ used0) →
     ∀ k, k < length cs → idx !! k = Some k).
Proof.
  intros HA HB Hcs.
  destruct (construct_siblings A B named HA HB cs used0 Hcs)
    as (ps & idx & used' & Hall & _ & _ & Hnd & Hlen & Hnth & _ & Hinc & Hseq).
  exists ps, idx, used'. split_and!; [done..|].
  intros Hfree k Hk. rewrite (Hseq 0).
  - by apply lookup_seq_lt.
  - intros i. split; [by intros ?%Hfree|lia].
Qed.

Lemma inside_A_sibling_site :
  sibling_site Scenario.A Scenario.B None (Scenario.inside_A Scenario.B).
Proof.
  split; [done|]. split; [done|].
  by exists [Scenario.delegate Scenario.B], "        self.child = Child()",
    [Scenario.script; Scenario.host].
Qed.

Lemma own_B_not_registered (i : nat) :
  indexed_prefix "B" "" "" i ∉ ({["A[0]."]} : gset string).
Proof. intros Hin%elem_of_singleton. discriminate Hin. Qed.

Lemma sibling_prefixes_distinct_in_order_witness :
  ∃ ps (idx : list nat) used',
    construct_all [Scenario.inside_A Scenario.B; Scenario.inside_A Scenario.B]
      {["A[0]."]} = Ok (ps, used') ∧
    NoDup ps ∧
    (∀ k, k < 2 →
       ∃ i j : nat,
         idx !! k = Some i ∧
         ps !! k
         = Some ("A" +:+ "" +:+ "[" +:+ pretty j +:+ "]." +:+
                 "B" +:+ "" +:+ "[" +:+ pretty i +:+ "]." +:+ "")) ∧
    (∀ k k' i i', k < k' → idx !! k = Some i → idx !! k' = Some i' → i < i') ∧
    (∀ k, k < 2 → idx !! k = Some k).
Proof.
  destruct (sibling_prefixes_distinct_in_order Scenario.A Scenario.B None
              [Scenario.inside_A Scenario.B; Scenario.inside_A Scenario.B]
              {["A[0]."]})
    as (ps & idx & used' & Hall & Hnd & Hnth & Hinc & Hseq).
  - reflexivity.
  - reflexivity.
  - repeat constructor; apply inside_A_sibling_site.
  - exists ps, idx, used'. split_and!; [done..|].
    apply Hseq. apply own_B_not_registered.
Defined.

(** C4, where the index does not start at 0: two instances of [A] at the
    top level, each building one [B].  The [B] of the second [A] is the
    first of its kind under that widget and carries the own index 1: the
    own index counts every [B] of the execution. *)
Lemma sibling_index_counts_all_counterexample :
  run_pass [Scenario.at_root Scenario.A; Scenario.inside_A Scenario.B;
            Scenario.at_root Scenario.A; Scenario.inside_A Scenario.B]
    Scenario.fresh_state
  = Ok ["A[0]."; "A[0].B[0]."; "A[1]."; "A[0].B[1]."] ∧
  "A[0].B[1]." = indexed_prefix "A" "" (indexed_prefix "B" "" "" 1) 0 ∧
  ∀ j, "A[0].B[1]." ≠ indexed_prefix "A" "" (indexed_prefix "B" "" "" 0) j.
Proof.
  split; [vm_compute; reflexivity|]. split; [vm_compute; reflexivity|].
  intros j Heq. apply (f_equal String.list_ascii_of_string) in Heq.
  rewrite !chars_indexed_prefix in Heq.
  change (pretty 0) with "0" in Heq. cbn [String.list_ascii_of_string app] in Heq.
  injection Heq as Heq.
  destruct (String.list_ascii_of_string (pretty j)) as [|a [|b l]].
  - discriminate Heq.
  - discriminate Heq.
  - apply (f_equal length) in Heq. cbn [length] in Heq.
    rewrite length_app in Heq. cbn [length] in Heq. lia.
Qed.

(** ** The pass-start sweep *)

Lemma persisted_items_set (keys : gset string) (items : list (string * pyval)) :
  persisted_items (PySet keys) items = Ok (filter (λ kv, kv.1 ∈ keys) items).
Proof.
  induction items as [|[key value] items IH]; [done|].
  cbn [persisted_items py_in]. rewrite bind_Ok, IH, bind_Ok.
  rewrite filter_cons. cbn [fst]. by case_bool_decide; case_decide.
Qed.

Lemma persisted_items_sublist (persist : pyval) (items e : list (string * pyval)) :
  persisted_items persist items = Ok e → e ⊆ items.
Proof.
  revert e. induction items as [|[key value] items IH]; intros e.
  { intros [= <-]. done. }
  cbn [persisted_items]. destruct (py_in key persist) as [b| |]; [|done..].
  rewrite bind_Ok. destruct (persisted_items persist items) as [rest| |]; [|done..].
  rewrite bind_Ok. intros [= <-]. specialize (IH rest eq_refl).
  destruct b; set_auto.
Qed.

(** Assigning to a dictionary items it already holds changes nothing. *)
Lemma dict_update_same (d : gmap string pyval) (e : list (string * pyval)) :
  (∀ kv, kv ∈ e → d !! kv.1 = Some kv.2) → dict_update d e = d.
Proof.
  unfold dict_update. induction e as [|kv e IH]; [done|]. intros He. cbn.
  rewrite insert_id by (apply He; constructor).
  apply IH. intros kv' ?. apply He. by constructor.
Qed.

Lemma prepare_unchanged (st st' : State) :
  prepare st = Ok st' →
  st' = {| used_key_prefixes := ∅; session_state := session_state st |}.
Proof.
  unfold prepare. destruct (session_state st !! _PERSIST_STATE_KEY) as [persist|].
  - destruct (persisted_items _ _) as [e| |] eqn:He; [|done..].
    rewrite bind_Ok. intros [= <-]. f_equal.
    apply dict_update_same. intros [k v] Hin.
    apply (persisted_items_sublist _ _ _ He) in Hin.
    by apply elem_of_map_to_list in Hin.
  - by intros [= <-].
Qed.

(** When the reserved entry is a set, [prepare] returns. *)
Lemma prepare_with_set (st : State) (keys : gset string) :
  session_state st !! _PERSIST_STATE_KEY = Some (PySet keys) →
  prepare st = Ok {| used_key_prefixes := ∅; session_state := session_state st |}.
Proof.
  intros Hp. destruct (prepare st) as [st'| |] eqn:Hprep.
  - by apply prepare_unchanged in Hprep as ->.
  - unfold prepare in Hprep. rewrite Hp, persisted_items_set in Hprep. done.
  - unfold prepare in Hprep. rewrite Hp, persisted_items_set in Hprep. done.
Qed.

(** C1, as the code has it: when the persisted set is in the store,
    [prepare] empties [used_key_prefixes], assigns to itself every entry
    whose key is in the set, and removes nothing: the store has the same
    entries afterwards. *)
Theorem prepare_rewrites_and_keeps_all (st : State) (keys : gset string) :
  session_state st !! _PERSIST_STATE_KEY = Some (PySet keys) →
  persisted_items (PySet keys) (map_to_list (session_state st))
  = Ok (filter (λ kv, kv.1 ∈ keys) (map_to_list (session_state st))) ∧
  prepare st = Ok {| used_key_prefixes := ∅; session_state := session_state st |}.
Proof.
  intros Hp. split; [apply persisted_items_set|]. by eapply prepare_with_set.
Qed.

Lemma prepare_rewrites_and_keeps_all_witness :
  persisted_items (PySet {["A[0].x"]}) (map_to_list Scenario.store)
  = Ok (filter (λ kv, kv.1 ∈ ({["A[0].x"]} : gset string)) (map_to_list Scenario.store)) ∧
  prepare {| used_key_prefixes := {["A[0]."]}; session_state := Scenario.store |}
  = Ok {| used_key_prefixes := ∅; session_state := Scenario.store |}.
Proof.
  apply (prepare_rewrites_and_keeps_all
           {| used_key_prefixes := {["A[0]."]}; session_state := Scenario.store |}
           {["A[0].x"]}).
  reflexivity.
Defined.

(** C1, where the code departs from it: the entry under [other] is not
    in the persisted set and is not the set itself, and it is still in
    the store after [prepare]. *)
Lemma prepare_removes_nothing_counterexample :
  prepare {| used_key_prefixes := {["A[0]."]}; session_state := Scenario.store |}
  = Ok {| used_key_prefixes := ∅; session_state := Scenario.store |} ∧
  Scenario.store !! "other" = Some (PyInt 2) ∧
  ("other" ∉ persistence_set Scenario.store) ∧
  "other" ≠ _PERSIST_STATE_KEY.
Proof.
  split; [vm_compute; reflexivity|]. split; [reflexivity|]. split; [|done].
  replace (persistence_set Scenario.store) with ({["A[0].x"]} : gset string)
    by (vm_compute; reflexivity).
  intros Hin%elem_of_singleton. discriminate Hin.
Qed.

(** ** The accessors *)

Section accessor_facts.
Context (key_prefix : string).

Abbreviation full := (_full_key key_prefix).
Abbreviation PERSIST := _PERSIST_STATE_KEY.

Lemma full_key_inj : Inj (=) (=) full.
Proof. intros k1 k2. apply String.app_inj. Qed.

Lemma persist_is_set_cases (ss : gmap string pyval) :
  persist_is_set ss = true →
  ss !! PERSIST = None ∨ ss !! PERSIST = Some (PySet (persistence_set ss)).
Proof.
  unfold persist_is_set, persistence_set.
  destruct (ss !! PERSIST) as [[]|]; naive_solver.
Qed.

(** One default, on a store that follows the data model. *)
Lemma apply_default_step (ss : gmap string pyval) (k : string) (v : pyval) :
  persist_is_set ss = true →
  apply_default key_prefix ss (k, v)
  = Ok (match ss !! full k with
        | Some _ => ss
        | None => <[full k := v]>
                    (<[PERSIST := PySet ({[full k]} ∪ persistence_set ss)]> ss)
        end).
Proof.
  intros Hwf. unfold apply_default. cbn [fst snd].
  destruct (ss !! full k) as [w|]; [done|].
  destruct (persist_is_set_cases ss Hwf) as [Hp|Hp]; rewrite Hp.
  - rewrite lookup_insert_eq. cbn [py_add]. rewrite bind_Ok.
    unfold persistence_set. rewrite Hp. by rewrite insert_insert_eq.
  - rewrite Hp. cbn [py_add]. by rewrite bind_Ok.
Qed.

Lemma apply_default_keeps_model (ss ss' : gmap string pyval) (k : string) (v : pyval) :
  persist_is_set ss = true → full k ≠ PERSIST →
  apply_default key_prefix ss (k, v) = Ok ss' →
  persist_is_set ss' = true.
Proof.
  intros Hwf Hk. rewrite apply_default_step by done. intros [= <-].
  destruct (ss !! full k); [done|].
  unfold persist_is_set. by rewrite lookup_insert_ne, lookup_insert_eq.
Qed.

(** What one default leaves in the store, entry by entry. *)
Lemma apply_default_lookup (ss ss' : gmap string pyval) (k : string) (v : pyval)
    (key : string) :
  persist_is_set ss = true → key ≠ PERSIST →
  apply_default key_prefix ss (k, v) = Ok ss' →
  ss' !! key = match ss !! key with
               | Some w => Some w
               | None => if decide (key = full k) then Some v else None
               end.
Proof.
  intros Hwf Hkey. rewrite apply_default_step by done. intros [= <-].
  destruct (ss !! full k) as [w|] eqn:Hk.
  - destruct (ss !! key) eqn:Hs; [done|]. case_decide; [congruence|done].
  - destruct (decide (key = full k)) as [->|Hne].
    + by rewrite lookup_insert_eq, Hk.
    + rewrite !lookup_insert_ne by done. by destruct (ss !! key).
Qed.

Lemma apply_default_persistence (ss ss' : gmap string pyval) (k : string) (v : pyval) :
  persist_is_set ss = true → full k ≠ PERSIST →
  apply_default key_prefix ss (k, v) = Ok ss' →
  persistence_set ss'
  = match ss !! full k with
    | Some _ => persistence_set ss
    | None => {[full k]} ∪ persistence_set ss
    end.
Proof.
  intros Hwf Hk. rewrite apply_default_step by done. intros [= <-].
  destruct (ss !! full k); [done|].
  unfold persistence_set at 1. by rewrite lookup_insert_ne, lookup_insert_eq.
Qed.

(** The whole loop. *)
Lemma apply_defaults_spec (defaults : list (string * pyval)) (ss : gmap string pyval) :
  persist_is_set ss = true →
  (∀ k, k ∈ defaults.*1 → full k ≠ PERSIST) →
  ∃ ss1,
    _apply_session_state_defaults key_prefix defaults ss = Ok ss1 ∧
    persist_is_set ss1 = true ∧
    (∀ key w, key ≠ PERSIST → ss !! key = Some w → ss1 !! key = Some w) ∧
    (∀ key, key ≠ PERSIST → ss !! key = None →
       (∀ k, k ∈ defaults.*1 → key ≠ full k) → ss1 !! key = None) ∧
    (∀ k v, NoDup defaults.*1 → (k, v) ∈ defaults → ss !! full k = None →
       ss1 !! full k = Some v) ∧
    (∀ k, k ∈ defaults.*1 → is_Some (ss1 !! full k)) ∧
    (∀ key, key ∈ persistence_set ss1 ↔
       key ∈ persistence_set ss ∨
       ∃ k, k ∈ defaults.*1 ∧ key = full k ∧ ss !! key = None).
Proof.
  revert ss. induction defaults as [|[k0 v0] defaults IH]; intros ss Hwf Hkeys.
  { exists ss. split_and!; try done.
    - intros ? ? ? ?%elem_of_nil. done.
    - intros ? ?%elem_of_nil. done.
    - intros key. split; [by left|]. intros [?|(? & ?%elem_of_nil & _)]; done. }
  assert (full k0 ≠ PERSIST) as Hk0 by (apply Hkeys; cbn; constructor).
  destruct (apply_default key_prefix ss (k0, v0)) as [ss'| |] eqn:Hstep;
    [|by rewrite apply_default_step in Hstep..].
  pose proof (apply_default_keeps_model _ _ _ _ Hwf Hk0 Hstep) as Hwf'.
  pose proof (λ key Hkey, apply_default_lookup _ _ _ _ key Hwf Hkey Hstep) as Hlook.
  pose proof (apply_default_persistence _ _ _ _ Hwf Hk0 Hstep) as Hpers.
  destruct (IH ss' Hwf') as (ss1 & Hrun & Hwf1 & Hkeep & Hnone & Hnew & Hall & Hset).
  { intros k ?. apply Hkeys. cbn. by constructor. }
  exists ss1. cbn [_apply_session_state_defaults]. rewrite Hstep, bind_Ok.
  split_and!; [done|done|..].
  - intros key w Hkey Hs. apply Hkeep; [done|]. by rewrite Hlook, Hs.
  - intros key Hkey Hs Hother. apply Hnone; [done| |].
    + rewrite Hlook, Hs by done. rewrite decide_False; [done|].
      apply Hother. cbn. constructor.
    + intros k ?. apply Hother. cbn. by constructor.
  - intros k v Hnd [[= -> ->]|Hin]%elem_of_cons Hs.
    + apply Hkeep; [done|]. by rewrite Hlook, Hs, decide_True.
    + cbn in Hnd. apply NoDup_cons in Hnd as [Hk0' Hnd].
      apply Hnew; [done..|]. rewrite Hlook, Hs by by apply Hkeys; cbn;
        constructor; apply (list_elem_of_fmap_2 fst) in Hin.
      rewrite decide_False; [done|]. intros ->%full_key_inj.
      apply Hk0'. by apply (list_elem_of_fmap_2 fst) in Hin.
  - intros k [->|Hin]%elem_of_cons; [|by apply Hall].
    destruct (ss' !! full k0) as [w|] eqn:Hs'.
    + exists w. by apply Hkeep.
    + rewrite Hlook in Hs' by done. destruct (ss !! full k0); [done|].
      by rewrite decide_True in Hs'.
  - intros key. rewrite Hset, Hpers. split.
    + intros [Hin|(k & Hk & -> & Hs')].
      * destruct (ss !! full k0) eqn:Hs; [by left|].
        apply elem_of_union in Hin as [->%elem_of_singleton|?]; [|by left].
        right. exists k0. split_and!; [cbn; constructor|done..].
      * right. exists k. split_and!; [cbn; by constructor|done|].
        assert (full k ≠ PERSIST) as Hk' by (apply Hkeys; cbn; by constructor).
        rewrite Hlook in Hs' by done. by destruct (ss !! full k).
    + intros [Hin|(k & Hk & -> & Hs)].
      * left. destruct (ss !! full k0); set_auto.
      * destruct (decide (k = k0)) as [->|Hne].
        { left. rewrite Hs. set_auto. }
        cbn in Hk. apply elem_of_cons in Hk as [?|Hk]; [done|].
        right. exists k. split_and!; [done..|].
        assert (full k ≠ PERSIST) as Hk' by (apply Hkeys; cbn; by constructor).
        rewrite Hlook, Hs by done. rewrite decide_False; [done|].
        by intros ?%full_key_inj.
Qed.

(** Defaults whose keys are all in the store change nothing. *)
Lemma apply_defaults_all_present (defaults : list (string * pyval))
    (ss : gmap string pyval) :
  (∀ k, k ∈ defaults.*1 → is_Some (ss !! full k)) →
  _apply_session_state_defaults key_prefix defaults ss = Ok ss.
Proof.
  induction defaults as [|[k v] defaults IH]; [done|]. intros Hall.
  cbn [_apply_session_state_defaults]. unfold apply_default. cbn [fst snd].
  destruct (Hall k) as [w ->]; [cbn; constructor|].
  rewrite bind_Ok. apply IH. intros k' ?. apply Hall. cbn. by constructor.
Qed.
End accessor_facts.

(** C5: on a store that follows the data model (the reserved entry, when
    present, is a set, and no field of the widget has the reserved key as
    its full key), [_apply_session_state_defaults] returns; it leaves
    every entry that was present as it was, writes the default of every
    field whose full key was absent and nothing else, adds to the
    persisted set exactly the full keys it wrote, and a second call with
    the same defaults leaves the store as the first call left it. *)
Theorem apply_defaults_only_absent_idempotent (key_prefix : string)
    (defaults : list (string * pyval)) (ss : gmap string pyval) :
  persist_is_set ss = true →
  NoDup defaults.*1 →
  (∀ k, k ∈ defaults.*1 → _full_key key_prefix k ≠ _PERSIST_STATE_KEY) →
  ∃ ss1,
    _apply_session_state_defaults key_prefix defaults ss = Ok ss1 ∧
    (∀ key w, key ≠ _PERSIST_STATE_KEY → ss !! key = Some w → ss1 !! key = Some w) ∧
    (∀ k v, (k, v) ∈ defaults → ss !! _full_key key_prefix k = None →
       ss1 !! _full_key key_prefix k = Some v) ∧
    (∀ key, key ≠ _PERSIST_STATE_KEY → ss !! key = None →
       (∀ k, k ∈ defaults.*1 → key ≠ _full_key key_prefix k) → ss1 !! key = None) ∧
    (∀ key, key ∈ persistence_set ss1 ↔
       key ∈ persistence_set ss ∨
       ∃ k, k ∈ defaults.*1 ∧ key = _full_key key_prefix k ∧ ss !! key = None) ∧
    _apply_session_state_defaults key_prefix defaults ss1 = Ok ss1.
Proof.
  intros Hwf Hnd Hkeys.
  destruct (apply_defaults_spec key_prefix defaults ss Hwf Hkeys)
    as (ss1 & Hrun & _ & Hkeep & Hnone & Hnew & Hall & Hset).
  exists ss1. split_and!; [done|done| |done|done|].
  - intros k v. by apply Hnew.
  - by apply apply_defaults_all_present.
Qed.

Lemma defaults_keys_not_reserved (k : string) :
  k ∈ Defaults.defaults.*1 → _full_key Defaults.prefix k ≠ _PERSIST_STATE_KEY.
Proof.
  cbn. intros [->|[->|[]%elem_of_nil]%elem_of_cons]%elem_of_cons; discriminate.
Qed.

Lemma defaults_keys_NoDup : NoDup Defaults.defaults.*1.
Proof. cbn. apply NoDup_cons. split; [|apply NoDup_singleton].
  intros [=]%list_elem_of_singleton. Qed.

Lemma apply_defaults_only_absent_idempotent_witness :
  ∃ ss1,
    _apply_session_state_defaults Defaults.prefix Defaults.defaults Scenario.store = Ok ss1 ∧
    (∀ key w, key ≠ _PERSIST_STATE_KEY → Scenario.store !! key = Some w → ss1 !! key = Some w) ∧
    (∀ k v, (k, v) ∈ Defaults.defaults → Scenario.store !! _full_key Defaults.prefix k = None →
       ss1 !! _full_key Defaults.prefix k = Some v) ∧
    (∀ key, key ≠ _PERSIST_STATE_KEY → Scenario.store !! key = None →
       (∀ k, k ∈ Defaults.defaults.*1 → key ≠ _full_key Defaults.prefix k) → ss1 !! key = None) ∧
    (∀ key, key ∈ persistence_set ss1 ↔
       key ∈ persistence_set Scenario.store ∨
       ∃ k, k ∈ Defaults.defaults.*1 ∧ key = _full_key Defaults.prefix k ∧
            Scenario.store !! key = None) ∧
    _apply_session_state_defaults Defaults.prefix Defaults.defaults ss1 = Ok ss1.
Proof.
  apply (apply_defaults_only_absent_idempotent Defaults.prefix Defaults.defaults
           Scenario.store).
  - reflexivity.
  - apply defaults_keys_NoDup.
  - apply defaults_keys_not_reserved.
Defined.

(** The scenario, evaluated: [x] keeps the value 7 it had, [y] gets its
    default, and only the full key of [y] joins the persisted set. *)
Example apply_defaults_scenario :
  _apply_session_state_defaults Defaults.prefix Defaults.defaults Scenario.store
  = Ok (<[_PERSIST_STATE_KEY := PySet {["A[0].x"; "A[0].y"]}]>
          (<["A[0].y" := PyNone]> Scenario.store)).
Proof. vm_compute. reflexivity. Qed.

(** C8: the value of a field whose full key is not in the store is
    [None]; the accessor has no failing path. *)
Theorem get_absent_is_None (key_prefix key_name : string) (ss : gmap string pyval) :
  ss !! _full_key key_prefix key_name = None →
  _get_session_state key_prefix key_name ss = PyNone.
Proof. intros Hs. unfold _get_session_state. by rewrite Hs. Qed.

Lemma get_absent_is_None_witness :
  _get_session_state "A[0]." "y" Scenario.store = PyNone.
Proof. apply (get_absent_is_None "A[0]." "y" Scenario.store). reflexivity. Defined.

(** C10: [_set_session_state] changes the entry at the full key of the
    field and no other; when that key is not the reserved one, the
    persisted set is the same before and after, so a key that was not in
    it is still not in it.  Keys join the persisted set in
    [_apply_session_state_defaults] only, and only the full keys of fields
    that were absent from the store. *)
Theorem set_state_frame (key_prefix key_name : string) (value : pyval)
    (ss : gmap string pyval) :
  (∀ key, key ≠ _full_key key_prefix key_name →
     _set_session_state key_prefix key_name value ss !! key = ss !! key) ∧
  (_full_key key_prefix key_name ≠ _PERSIST_STATE_KEY →
     persistence_set (_set_session_state key_prefix key_name value ss)
     = persistence_set ss ∧
     (_full_key key_prefix key_name ∉ persistence_set ss →
      _full_key key_prefix key_name
        ∉ persistence_set (_set_session_state key_prefix key_name value ss))) ∧
  (∀ defaults ss1 key,
     persist_is_set ss = true →
     (∀ k, k ∈ defaults.*1 → _full_key key_prefix k ≠ _PERSIST_STATE_KEY) →
     _apply_session_state_defaults key_prefix defaults ss = Ok ss1 →
     key ∈ persistence_set ss1 →
     key ∈ persistence_set ss ∨
     ∃ k, k ∈ defaults.*1 ∧ key = _full_key key_prefix k ∧ ss !! key = None).
Proof.
  unfold _set_session_state. split_and!.
  - intros key Hkey. by rewrite lookup_insert_ne.
  - intros Hk.
    assert (persistence_set (<[_full_key key_prefix key_name := value]> ss)
            = persistence_set ss) as ->; [|done].
    unfold persistence_set. by rewrite lookup_insert_ne.
  - intros defaults ss1 key Hwf Hkeys Hrun.
    destruct (apply_defaults_spec key_prefix defaults ss Hwf Hkeys)
      as (ss1' & Hrun' & _ & _ & _ & _ & _ & Hset).
    rewrite Hrun in Hrun'. injection Hrun' as <-. by intros ?%Hset.
Qed.

Lemma set_state_frame_witness :
  _set_session_state "A[0]." "z" (PyInt 1) Scenario.store !! "other"
  = Scenario.store !! "other" ∧
  persistence_set (_set_session_state "A[0]." "z" (PyInt 1) Scenario.store)
  = persistence_set Scenario.store ∧
  (_full_key "A[0]." "z"
     ∉ persistence_set (_set_session_state "A[0]." "z" (PyInt 1) Scenario.store)).
Proof.
  destruct (set_state_frame "A[0]." "z" (PyInt 1) Scenario.store)
    as (Hframe & Hpers & _).
  split; [by apply Hframe|].
  destruct Hpers as [Heq Hnot]; [done|]. split; [done|]. apply Hnot.
  replace (persistence_set Scenario.store) with ({["A[0].x"]} : gset string)
    by (vm_compute; reflexivity).
  intros Hin%elem_of_singleton. discriminate Hin.
Defined.

(** C6: a value written by [_set_session_state] is what
    [_get_session_state] returns, at once and after the sweep of the next
    execution (which returns when the reserved entry is a set); when the
    full key is not the reserved one, defaults applied afterwards, by any
    widget, do not change it. *)
Theorem set_then_get_survives_sweep (key_prefix key_name : string) (value : pyval)
    (ss : gmap string pyval) :
  let ss' := _set_session_state key_prefix key_name value ss in
  _get_session_state key_prefix key_name ss' = value ∧
  ∀ keys used0,
    ss' !! _PERSIST_STATE_KEY = Some (PySet keys) →
    _full_key key_prefix key_name ∈ keys →
    ∃ st',
      prepare {| used_key_prefixes := used0; session_state := ss' |} = Ok st' ∧
      _get_session_state key_prefix key_name (session_state st') = value ∧
      ∀ key_prefix' defaults,
        _full_key key_prefix key_name ≠ _PERSIST_STATE_KEY →
        (∀ k, k ∈ defaults.*1 → _full_key key_prefix' k ≠ _PERSIST_STATE_KEY) →
        ∃ ss2,
          _apply_session_state_defaults key_prefix' defaults (session_state st') = Ok ss2 ∧
          _get_session_state key_prefix key_name ss2 = value.
Proof.
  intros ss'.
  assert (ss' !! _full_key key_prefix key_name = Some value) as Hval.
  { unfold ss', _set_session_state. apply lookup_insert_eq. }
  assert (_get_session_state key_prefix key_name ss' = value) as Hget.
  { unfold _get_session_state. by rewrite Hval. }
  split; [done|]. intros keys used0 Hp Hin.
  pose proof (prepare_with_set
                {| used_key_prefixes := used0; session_state := ss' |} keys Hp)
    as Hprep.
  eexists. split; [exact Hprep|]. cbn [session_state]. split; [done|].
  intros key_prefix' defaults Hne Hkeys.
  destruct (apply_defaults_spec key_prefix' defaults ss') as (ss2 & Hrun & _ & Hkeep & _).
  { unfold persist_is_set. by rewrite Hp. }
  { done. }
  exists ss2. split; [done|]. unfold _get_session_state.
  by rewrite (Hkeep _ value Hne Hval).
Qed.

(** The scenario of C6: [x] defaulted to 5, set to 7, swept, defaulted
    again: the value read is 7. *)
Lemma set_then_get_survives_sweep_witness :
  ∃ ss1 st' ss2,
    _apply_session_state_defaults "A[0]." [("x", PyInt 5)] ∅ = Ok ss1 ∧
    prepare {| used_key_prefixes := {["A[0]."]};
               session_state := _set_session_state "A[0]." "x" (PyInt 7) ss1 |}
    = Ok st' ∧
    _get_session_state "A[0]." "x" (session_state st') = PyInt 7 ∧
    _apply_session_state_defaults "A[0]." [("x", PyInt 5)] (session_state st') = Ok ss2 ∧
    _get_session_state "A[0]." "x" ss2 = PyInt 7.
Proof.
  eexists. 
  destruct (set_then_get_survives_sweep "A[0]." "x" (PyInt 7)
              (<["A[0].x" := PyInt 5]> (<[_PERSIST_STATE_KEY := PySet {["A[0].x"]}]> ∅)))
    as [_ Hsweep].
  destruct (Hsweep {["A[0].x"]} {["A[0]."]}) as (st' & Hprep & Hget & Hdef).
  { reflexivity. }
  { by apply elem_of_singleton. }
  destruct (Hdef "A[0]." [("x", PyInt 5)]) as (ss2 & Hrun & Hget2).
  { discriminate. }
  { cbn. intros k ->%list_elem_of_singleton. discriminate. }
  exists st', ss2. split; [vm_compute; reflexivity|]. by split_and!.
Defined.

(** ** Stability across executions *)

Lemma run_pass_from_empty (cs : list construction) (st st' : State) :
  prepare st = Ok st' →
  run_pass cs st = construct_all cs ∅ ≫= λ rs, Ok rs.1.
Proof.
  intros Hprep. unfold run_pass. rewrite Hprep, bind_Ok.
  by apply prepare_unchanged in Hprep as ->.
Qed.

(** C7: two executions that start with [prepare] and run the same
    constructions through the same frames resolve the same prefixes, one
    by one, whatever [used_key_prefixes] and the store held before. *)
Theorem prefixes_stable_across_passes (cs : list construction) (st1 st2 st1' st2' : State) :
  prepare st1 = Ok st1' →
  prepare st2 = Ok st2' →
  run_pass cs st1 = run_pass cs st2 ∧
  ∀ ps1 ps2 n,
    run_pass cs st1 = Ok ps1 → run_pass cs st2 = Ok ps2 → ps1 !! n = ps2 !! n.
Proof.
  intros H1 H2.
  assert (run_pass cs st1 = run_pass cs st2) as Heq.
  { by rewrite (run_pass_from_empty cs st1 st1'), (run_pass_from_empty cs st2 st2'). }
  split; [done|]. intros ps1 ps2 n Hps1 Hps2. congruence.
Qed.

Lemma prefixes_stable_across_passes_witness :
  run_pass [Scenario.at_root Scenario.A; Scenario.inside_A Scenario.B]
    Scenario.fresh_state
  = run_pass [Scenario.at_root Scenario.A; Scenario.inside_A Scenario.B]
      {| used_key_prefixes := {["A[0]."; "A[0].B[0]."; "B[0]."]};
         session_state := Scenario.store |} ∧
  run_pass [Scenario.at_root Scenario.A; Scenario.inside_A Scenario.B]
    Scenario.fresh_state
  = Ok ["A[0]."; "A[0].B[0]."].
Proof.
  split; [|vm_compute; reflexivity].
  apply (prefixes_stable_across_passes
           [Scenario.at_root Scenario.A; Scenario.inside_A Scenario.B]
           Scenario.fresh_state
           {| used_key_prefixes := {["A[0]."; "A[0].B[0]."; "B[0]."]};
              session_state := Scenario.store |}
           {| used_key_prefixes := ∅; session_state := ∅ |}
           {| used_key_prefixes := ∅; session_state := Scenario.store |});
    vm_compute; reflexivity.
Defined.

(** * Further properties of [widget_base.py] *)

(** ** The constructor on any stack *)

Lemma visit_outcome (named : option string) (cls : PyClass) (w : walk_state) :
  ∃ w', visit named cls w = Ok w' ∧
        named_instance_used w' = true ∧
        used w ⊆ used w' ∧
        (issubclass_BlendState cls = false →
           (_key_prefix w' ∉ used w) ∧ _key_prefix w' ∈ used w').
Proof.
  destruct w as [b p u]. destruct (issubclass_BlendState cls) eqn:Hb.
  - rewrite visit_blend by done. eexists. split; [done|]. by split_and!.
  - destruct (visit_ordinary named cls b p u Hb) as (i & [Hi _] & ->).
    eexists. split; [done|]. cbn. split_and!; [done|set_auto|].
    intros _. split; [done|set_auto].
Qed.

Lemma walk_returns_or_TypeError (named : option string) (frames : list FrameInfo)
    (w : walk_state) :
  (forallb has_source frames = true → ∃ w', walk named frames w = Ok w') ∧
  ((∃ w', walk named frames w = Ok w') ∨ walk named frames w = Raise TypeError).
Proof.
  revert w. induction frames as [|frame frames IH]; intros w; [by eauto|].
  cbn [walk forallb]. unfold has_source, isinstance_ABC.
  destruct (f_self frame) as [c|]; [|by rewrite andb_true_l].
  destruct (issubclass_WidgetBase c); [|by eauto].
  destruct (code_context frame) as [line|]; [|split; [done|by right]].
  rewrite andb_true_l. destruct (str_contains "WidgetBase" line); [done|].
  destruct (visit_outcome named c w) as (w' & -> & _). by rewrite bind_Ok.
Qed.

Lemma init_with_source (cls : PyClass) (named : option string)
    (callers : list FrameInfo) (used0 : gset string) :
  forallb has_source callers = true →
  ∃ p used', __init__ cls named callers used0 = Ok (p, used').
Proof.
  intros Hsrc. unfold __init__.
  destruct (proj1 (walk_returns_or_TypeError named (init_frame cls :: callers)
              {| named_instance_used := false; _key_prefix := ""; used := used0 |}))
    as [w' ->]; [done|].
  rewrite bind_Ok. by eauto.
Qed.



(** ** The registry *)

Lemma walk_registry_grows (named : option string) (frames : list FrameInfo)
    (w w' : walk_state) :
  walk named frames w = Ok w' → used w ⊆ used w'.
Proof.
  revert w. induction frames as [|frame frames IH]; intros w; cbn [walk].
  { by intros [= <-]. }
  destruct (f_self frame) as [c|]; [|by apply IH].
  destruct (issubclass_WidgetBase c); [|by intros [= <-]].
  unfold isinstance_ABC. destruct (code_context frame) as [line|]; [|done].
  destruct (str_contains "WidgetBase" line); [by apply IH|].
  destruct (visit_outcome named c w) as (w1 & -> & _ & Hsub & _).
  rewrite bind_Ok. intros Hw'%IH. set_auto.
Qed.

Lemma init_used_subset (cls : PyClass) (named : option string)
    (callers : list FrameInfo) (used0 used' : gset string) (p : string) :
  __init__ cls named callers used0 = Ok (p, used') → used0 ⊆ used'.
Proof.
  unfold __init__.
  destruct (walk named (init_frame cls :: callers) _) as [w'| |] eqn:Hwalk; [|done..].
  rewrite bind_Ok. intros [= <- <-]. by apply walk_registry_grows in Hwalk.
Qed.

Lemma construct_all_used_subset (cs : list construction)
    (used0 used' : gset string) (ps : list string) :
  construct_all cs used0 = Ok (ps, used') → used0 ⊆ used'.
Proof.
  revert used0 used' ps.
  induction cs as [|c cs IH]; intros u u' ps; cbn [construct_all].
  { by intros [= <- <-]. }
  destruct (__init__ _ _ _ _) as [[p u1]| |] eqn:Hinit; [|done..].
  rewrite bind_Ok. cbn [fst snd].
  destruct (construct_all cs u1) as [[ps' u2]| |] eqn:Hrest; [|done..].
  rewrite bind_Ok. cbn [fst snd]. intros [= <- <-].
  apply init_used_subset in Hinit. apply IH in Hrest. set_auto.
Qed.



(** On a stack without [BlendState] frames, once a frame has been
    counted the prefix is one the walk registered itself. *)
Lemma walk_ordinary_fresh (named : option string) (frames : list FrameInfo)
    (used0 : gset string) (w w' : walk_state) :
  forallb not_blend frames = true →
  (_key_prefix w ∉ used0) → _key_prefix w ∈ used w → used0 ⊆ used w →
  walk named frames w = Ok w' →
  (_key_prefix w' ∉ used0) ∧ _key_prefix w' ∈ used w'.
Proof.
  revert w. induction frames as [|frame frames IH]; intros w; cbn [walk forallb].
  { intros _ ? ? ? [= <-]. done. }
  intros [Hf Hfs]%andb_true_iff Hfresh Hin Hsub. unfold not_blend in Hf.
  destruct (f_self frame) as [c|]; [|by apply IH].
  destruct (issubclass_WidgetBase c); [|by intros [= <-]].
  unfold isinstance_ABC. destruct (code_context frame) as [line|]; [|done].
  destruct (str_contains "WidgetBase" line); [by apply IH|].
  apply negb_true_iff in Hf.
  destruct (visit_outcome named c w) as (w1 & -> & _ & Hsub1 & Hnew).
  destruct (Hnew Hf) as [Hnot Hin1]. rewrite bind_Ok.
  apply IH; [done|set_auto|done|set_auto].
Qed.

Lemma init_ordinary_fresh (c : construction) (used0 used' : gset string) (p : string) :
  all_ordinary c = true →
  __init__ (c_class c) (c_named c) (c_callers c) used0 = Ok (p, used') →
  (p ∉ used0) ∧ p ∈ used'.
Proof.
  intros [Hk%bool_decide_eq_true Hfs]%andb_true_iff. unfold __init__.
  apply ordinary_is_widget in Hk as [Hw Hb].
  rewrite walk_init_frame by done.
  destruct (visit_outcome (c_named c) (c_class c)
              {| named_instance_used := false; _key_prefix := ""; used := used0 |})
    as (w1 & -> & _ & Hsub1 & Hnew).
  destruct (Hnew Hb) as [Hnot Hin1]. rewrite bind_Ok.
  destruct (walk (c_named c) (c_callers c) w1) as [w'| |] eqn:Hwalk; [|done..].
  rewrite bind_Ok. intros [= <- <-].
  by eapply walk_ordinary_fresh.
Qed.



(** ** [BlendState] *)





(** ** Keys *)

Lemma prefix_app (p s : string) : String.prefix p (p +:+ s) = true.
Proof.
  induction p as [|a p IH].
  - change ("" +:+ s) with s. by destruct s.
  - rewrite string_app_cons. cbn. by destruct (ascii_dec a a).
Qed.

Lemma prefix_inv (p key : string) :
  String.prefix p key = true → ∃ s, key = p +:+ s.
Proof.
  revert key. induction p as [|a p IH]; intros key; [by exists key|].
  destruct key as [|b key]; [done|]. cbn.
  destruct (ascii_dec a b) as [->|]; [|done].
  intros (s & ->)%IH. by exists s.
Qed.

(** Digits followed by a closing bracket: the digits are determined. *)
Lemma digits_then_bracket (K1 K2 r1 r2 : list ascii) :
  "]"%char ∉ K1 → "]"%char ∉ K2 →
  K1 ++ "]"%char :: r1 = K2 ++ "]"%char :: r2 → K1 = K2.
Proof.
  revert K2. induction K1 as [|a K1 IH]; intros [|b K2] H1 H2 Heq; cbn in Heq.
  - done.
  - injection Heq as <- _. destruct H2. constructor.
  - injection Heq as -> _. destruct H1. constructor.
  - injection Heq as -> Heq. f_equal. apply IH; [| |done].
    + intros ?. apply H1. by constructor.
    + intros ?. apply H2. by constructor.
Qed.

Lemma pretty_nat_no_close_bracket (n : nat) :
  "]"%char ∉ String.list_ascii_of_string (pretty n).
Proof.
  intros Hc%pretty_nat_chars. cbn in Hc.
  repeat (apply elem_of_cons in Hc as [Hc|Hc]; [discriminate Hc|]).
  by apply elem_of_nil in Hc.
Qed.

(** Two indexed prefixes with the same stem and different indices never
    give the same full key. *)
Lemma indexed_full_keys_differ (name named p1 p2 : string) (i j : nat) (f g : string) :
  i ≠ j →
  _full_key (indexed_prefix name named p1 i) f
  ≠ _full_key (indexed_prefix name named p2 j) g.
Proof.
  intros Hij Heq. unfold _full_key, indexed_prefix in Heq.
  rewrite !string_app_assoc in Heq. do 3 apply String.app_inj in Heq.
  apply (f_equal String.list_ascii_of_string) in Heq.
  rewrite !chars_app in Heq. cbn [String.list_ascii_of_string app] in Heq.
  apply digits_then_bracket in Heq; try apply pretty_nat_no_close_bracket.
  apply chars_inj in Heq. by apply (inj pretty) in Heq.
Qed.

Lemma chained_full_key (parent p : string) (k : nat) (f : string) :
  _full_key (indexed_prefix parent "" p k) f
  = (parent +:+ "" +:+ "[" +:+ pretty k +:+ "].") +:+ _full_key p f.
Proof. unfold _full_key, indexed_prefix. by rewrite !string_app_assoc. Qed.



(** ** The view of a widget on the store *)

Lemma view_lookup (key_prefix : string) (ss : gmap string pyval) (key : string) :
  _session_state_for_this_widget key_prefix ss !! key
  = if String.prefix key_prefix key then ss !! key else None.
Proof.
  unfold _session_state_for_this_widget.
  destruct (String.prefix key_prefix key) eqn:Hp.
  - destruct (ss !! key) as [v|] eqn:Hs.
    + by apply map_lookup_filter_Some.
    + apply map_lookup_filter_None. by left.
  - apply map_lookup_filter_None. right. intros v _. cbn. by rewrite Hp.
Qed.



(** ** The sweep and the defaults on any store *)

Lemma persisted_items_str (s : string) (items : list (string * pyval)) :
  ∃ e, persisted_items (PyStr s) items = Ok e.
Proof.
  induction items as [|[key value] items [e IH]]; [by eexists|].
  cbn [persisted_items py_in]. rewrite bind_Ok, IH, bind_Ok. by eexists.
Qed.

Lemma persisted_items_TypeError (persist : pyval) (items : list (string * pyval)) :
  py_in "" persist = Raise TypeError → items ≠ [] →
  persisted_items persist items = Raise TypeError.
Proof.
  intros Hp Hne. destruct items as [|[key value] items]; [done|].
  cbn [persisted_items]. by destruct persist.
Qed.


Lemma apply_default_grows (key_prefix : string) (ss ss' : gmap string pyval)
    (kv : string * pyval) :
  apply_default key_prefix ss kv = Ok ss' →
  is_Some (ss' !! _full_key key_prefix kv.1) ∧
  ∀ key, is_Some (ss !! key) → is_Some (ss' !! key).
Proof.
  unfold apply_default.
  destruct (ss !! _full_key key_prefix kv.1) as [w|] eqn:Hk.
  { intros [= <-]. by rewrite Hk. }
  destruct (ss !! _PERSIST_STATE_KEY) as [persist|] eqn:Hp.
  - rewrite Hp. destruct persist; try done. cbn [py_add]. rewrite bind_Ok.
    intros [= <-]. split; [by rewrite lookup_insert_eq|].
    intros key Hs. rewrite !lookup_insert. by repeat case_decide.
  - rewrite lookup_insert_eq. cbn [py_add]. rewrite bind_Ok.
    intros [= <-]. split; [by rewrite lookup_insert_eq|].
    intros key Hs. rewrite !lookup_insert. by repeat case_decide.
Qed.

Lemma apply_defaults_grows (key_prefix : string) (defaults : list (string * pyval))
    (ss ss' : gmap string pyval) :
  _apply_session_state_defaults key_prefix defaults ss = Ok ss' →
  (∀ k, k ∈ defaults.*1 → is_Some (ss' !! _full_key key_prefix k)) ∧
  ∀ key, is_Some (ss !! key) → is_Some (ss' !! key).
Proof.
  revert ss. induction defaults as [|kv defaults IH]; intros ss;
    cbn [_apply_session_state_defaults].
  { intros [= <-]. split; [by intros ? ?%elem_of_nil|done]. }
  destruct (apply_default key_prefix ss kv) as [ss1| |] eqn:Hstep; [|done..].
  rewrite bind_Ok. intros [Hall Hmono]%IH.
  apply apply_default_grows in Hstep as [Hk Hmono1]. split.
  - intros k [->|Hin]%elem_of_cons; [by apply Hmono|by apply Hall].
  - intros key Hs. by apply Hmono, Hmono1.
Qed.





(** * Properties of [TableChooser] *)

(** Projections of a constructed instance and state. *)
Ltac chooser_simpl :=
  cbn [tc_key_prefix selected_database selected_schema selected_table
       full_table_name show_selection databases schemas tables
       session_state used_key_prefixes fst snd].

Section chooser_facts.
Context (query_names : string → outcome (list string))
        (str_of_set : gset string → string).

Abbreviation init := (TableChooser__init__ query_names str_of_set).
Abbreviation first_defaults i1 i2 i3 :=
  [("database", of_optional i1); ("schema", of_optional i2); ("table", of_optional i3)].
Abbreviation second_defaults i1 i2 i3 :=
  [("show_selection",
    PyBool (is_None (of_optional i1) || is_None (of_optional i2)
            || is_None (of_optional i3)))].
Abbreviation own_frame :=
  (method_frame TableChooser_class "            WidgetBase.__init__(self)").

(** No field of a [TableChooser] has the reserved key as its full key,
    whatever the prefix: the last characters differ. *)
Lemma chooser_keys_not_reserved (key_prefix k : string) :
  k ∈ ["database"; "schema"; "table"; "show_selection"] →
  _full_key key_prefix k ≠ _PERSIST_STATE_KEY.
Proof.
  intros Hk Heq. apply (f_equal String.list_ascii_of_string) in Heq.
  unfold _full_key in Heq. rewrite chars_app in Heq.
  apply (f_equal (@last ascii)) in Heq.
  repeat (apply elem_of_cons in Hk as [->|Hk]);
    [..|by apply elem_of_nil in Hk];
    rewrite last_app in Heq; cbn in Heq; discriminate Heq.
Qed.

Lemma is_None_true (v : pyval) : is_None v = true ↔ v = PyNone.
Proof. by destruct v. Qed.

Lemma is_None_false (v : pyval) : v ≠ PyNone → is_None v = false.
Proof. by destruct v. Qed.

(** What the constructor did when it returned. *)
Lemma init_inv (i1 i2 i3 : option string) (outer : list FrameInfo)
    (st st' : State) (tc : TableChooser) :
  init i1 i2 i3 outer st = Ok (tc, st') →
  ∃ ss1 dbs,
    __init__ TableChooser_class None (own_frame :: outer) (used_key_prefixes st)
    = Ok (tc_key_prefix tc, used_key_prefixes st') ∧
    _apply_session_state_defaults (tc_key_prefix tc) (first_defaults i1 i2 i3)
      (session_state st) = Ok ss1 ∧
    _apply_session_state_defaults (tc_key_prefix tc) (second_defaults i1 i2 i3) ss1
    = Ok (session_state st') ∧
    selected_database tc = _get_session_state (tc_key_prefix tc) "database" ss1 ∧
    selected_schema tc = _get_session_state (tc_key_prefix tc) "schema" ss1 ∧
    selected_table tc = _get_session_state (tc_key_prefix tc) "table" ss1 ∧
    show_selection tc
    = _get_session_state (tc_key_prefix tc) "show_selection" (session_state st') ∧
    query_names show_databases = Ok dbs ∧
    databases tc = with_None dbs ∧
    full_table_name tc
    = (if is_None (selected_database tc) || is_None (selected_schema tc) then None
       else Some (quoted_table_name str_of_set (selected_database tc)
                    (selected_schema tc) (selected_table tc))) ∧
    (schemas tc = None ↔ selected_database tc = PyNone) ∧
    (tables tc = None ↔ selected_database tc = PyNone ∨ selected_schema tc = PyNone).
Proof.
  unfold TableChooser__init__.
  destruct (__init__ _ _ _ _) as [[p u]| |] eqn:Hinit; [|done..].
  rewrite bind_Ok. cbn [fst snd].
  destruct (_apply_session_state_defaults p (first_defaults i1 i2 i3) _)
    as [ss1| |] eqn:Hfirst; [|done..]. rewrite bind_Ok.
  destruct (_apply_session_state_defaults p (second_defaults i1 i2 i3) ss1)
    as [ss2| |] eqn:Hsecond; [|done..]. rewrite bind_Ok.
  destruct (query_names show_databases) as [dbs| |] eqn:Hdbs; [|done..].
  rewrite bind_Ok.
  destruct (is_None (_get_session_state p "database" ss1)) eqn:Hdb.
  { intros [= <- <-]. exists ss1, dbs. chooser_simpl. rewrite Hdb.
    apply is_None_true in Hdb. split_and!; try done. by split; [left|]. }
  destruct (query_names (show_schemas _ _)) as [schs| |]; [|done..]. rewrite bind_Ok.
  assert (_get_session_state p "database" ss1 ≠ PyNone) as Hdb'.
  { intros Hn%is_None_true. congruence. }
  destruct (is_None (_get_session_state p "schema" ss1)) eqn:Hsch.
  { intros [= <- <-]. exists ss1, dbs. chooser_simpl. rewrite Hdb, Hsch.
    apply is_None_true in Hsch. split_and!; try done. by split; [right|]. }
  destruct (query_names (show_tables _ _ _)) as [tbls| |]; [|done..]. rewrite bind_Ok.
  assert (_get_session_state p "schema" ss1 ≠ PyNone) as Hsch'.
  { intros Hn%is_None_true. congruence. }
  intros [= <- <-]. exists ss1, dbs. chooser_simpl. rewrite Hdb, Hsch.
  split_and!; try done. split; [done|]. by intros [?|?].
Qed.

Lemma first_defaults_NoDup (i1 i2 i3 : option string) :
  NoDup (first_defaults i1 i2 i3).*1.
Proof.
  cbn. repeat (apply NoDup_cons; split); [| |by intros ?%elem_of_nil|constructor];
    intros Hin; repeat (apply elem_of_cons in Hin as [[=]|Hin]);
    by apply elem_of_nil in Hin.
Qed.

Lemma first_default_key (i1 i2 i3 : option string) (k : string) (v : pyval) :
  (k, v) ∈ first_defaults i1 i2 i3 →
  k ∈ ["database"; "schema"; "table"; "show_selection"].
Proof.
  intros Hin. repeat (apply elem_of_cons in Hin as [[= -> ->]|Hin]);
    [..|by apply elem_of_nil in Hin]; by repeat constructor.
Qed.

(** The two calls of the defaults in the constructor, on a store that
    follows the data model. *)
Lemma chooser_defaults (key_prefix : string) (i1 i2 i3 : option string)
    (ss : gmap string pyval) :
  persist_is_set ss = true →
  ∃ ss1 ss2,
    _apply_session_state_defaults key_prefix (first_defaults i1 i2 i3) ss = Ok ss1 ∧
    _apply_session_state_defaults key_prefix (second_defaults i1 i2 i3) ss1 = Ok ss2 ∧
    persist_is_set ss2 = true ∧
    (∀ k v, (k, v) ∈ first_defaults i1 i2 i3 ++ second_defaults i1 i2 i3 →
       ss2 !! _full_key key_prefix k
       = Some (default v (ss !! _full_key key_prefix k))) ∧
    (∀ k v, (k, v) ∈ first_defaults i1 i2 i3 →
       ss1 !! _full_key key_prefix k = ss2 !! _full_key key_prefix k) ∧
    (∀ key w, key ≠ _PERSIST_STATE_KEY → ss !! key = Some w → ss2 !! key = Some w) ∧
    (∀ key, key ≠ _PERSIST_STATE_KEY → ss !! key = None →
       (∀ k, k ∈ ["database"; "schema"; "table"; "show_selection"] →
          key ≠ _full_key key_prefix k) →
       ss2 !! key = None).
Proof.
  intros Hwf.
  destruct (apply_defaults_spec key_prefix (first_defaults i1 i2 i3) ss Hwf)
    as (ss1 & Hrun1 & Hwf1 & Hkeep1 & Hnone1 & Hnew1 & Hall1 & _).
  { intros k Hk. apply chooser_keys_not_reserved. cbn in Hk. set_auto. }
  destruct (apply_defaults_spec key_prefix (second_defaults i1 i2 i3) ss1 Hwf1)
    as (ss2 & Hrun2 & Hwf2 & Hkeep2 & Hnone2 & Hnew2 & Hall2 & _).
  { intros k Hk. apply chooser_keys_not_reserved. cbn in Hk. set_auto. }
  assert (∀ k v, (k, v) ∈ first_defaults i1 i2 i3 →
            _full_key key_prefix k ≠ _PERSIST_STATE_KEY ∧
            ss1 !! _full_key key_prefix k
            = Some (default v (ss !! _full_key key_prefix k))) as Hfirst.
  { intros k v Hin.
    assert (_full_key key_prefix k ≠ _PERSIST_STATE_KEY) as Hk.
    { apply chooser_keys_not_reserved. by eapply first_default_key. }
    split; [done|]. destruct (ss !! _full_key key_prefix k) as [w|] eqn:Hs.
    - by apply Hkeep1.
    - apply Hnew1; [apply first_defaults_NoDup|done..]. }
  exists ss1, ss2. split_and!; [done..| | | |].
  - intros k v [Hin|Hin]%elem_of_app.
    + destruct (Hfirst k v Hin) as [Hk Hs]. by apply Hkeep2.
    + apply list_elem_of_singleton in Hin as [= -> ->].
      assert (_full_key key_prefix "show_selection" ≠ _PERSIST_STATE_KEY) as Hk.
      { apply chooser_keys_not_reserved. set_auto. }
      destruct (ss !! _full_key key_prefix "show_selection") as [w|] eqn:Hs.
      * by apply Hkeep2, Hkeep1.
      * apply Hnew2; [apply NoDup_singleton|by apply list_elem_of_singleton|].
        apply Hnone1; [done..|]. intros k Hk' ?%full_key_inj. subst k.
        cbn in Hk'. repeat (apply elem_of_cons in Hk' as [[=]|Hk']).
        by apply elem_of_nil in Hk'.
  - intros k v Hin. destruct (Hfirst k v Hin) as [Hk Hs]. rewrite Hs.
    symmetry. by apply Hkeep2.
  - intros key w Hkey Hs. by apply Hkeep2, Hkeep1.
  - intros key Hkey Hs Hother. apply Hnone2; [done| |].
    + apply Hnone1; [done..|]. intros k Hk. apply Hother. cbn in Hk. set_auto.
    + intros k Hk. apply Hother. cbn in Hk. set_auto.
Qed.

(** The constructor on a store that follows the data model. *)
Lemma init_on_model (i1 i2 i3 : option string) (outer : list FrameInfo)
    (st st' : State) (tc : TableChooser) :
  persist_is_set (session_state st) = true →
  init i1 i2 i3 outer st = Ok (tc, st') →
  let p := tc_key_prefix tc in
  let ss := session_state st in
  persist_is_set (session_state st') = true ∧
  __init__ TableChooser_class None (own_frame :: outer) (used_key_prefixes st)
  = Ok (p, used_key_prefixes st') ∧
  selected_database tc = default (of_optional i1) (ss !! _full_key p "database") ∧
  selected_schema tc = default (of_optional i2) (ss !! _full_key p "schema") ∧
  selected_table tc = default (of_optional i3) (ss !! _full_key p "table") ∧
  show_selection tc
  = default (PyBool (is_None (of_optional i1) || is_None (of_optional i2)
                     || is_None (of_optional i3)))
      (ss !! _full_key p "show_selection") ∧
  session_state st' !! _full_key p "database" = Some (selected_database tc) ∧
  session_state st' !! _full_key p "schema" = Some (selected_schema tc) ∧
  session_state st' !! _full_key p "table" = Some (selected_table tc) ∧
  session_state st' !! _full_key p "show_selection" = Some (show_selection tc) ∧
  (∀ key w, key ≠ _PERSIST_STATE_KEY → ss !! key = Some w →
     session_state st' !! key = Some w) ∧
  (∀ key, key ≠ _PERSIST_STATE_KEY → ss !! key = None →
     (∀ k, k ∈ ["database"; "schema"; "table"; "show_selection"] →
        key ≠ _full_key p k) →
     session_state st' !! key = None).
Proof.
  intros Hwf (ss1 & dbs & Hinit & Hfirst & Hsecond & Hdb & Hsch & Htbl & Hshow & _)%init_inv p ss.
  destruct (chooser_defaults p i1 i2 i3 ss Hwf)
    as (ss1' & ss2' & Hf & Hs & Hwf2 & Hval & Hsame & Hkeep & Hnone).
  fold p in Hfirst, Hsecond, Hdb, Hsch, Htbl, Hshow. fold ss in Hfirst.
  rewrite Hfirst in Hf. injection Hf as <-.
  rewrite Hsecond in Hs. injection Hs as <-.
  assert (∀ k v, (k, v) ∈ first_defaults i1 i2 i3 →
            _get_session_state p k ss1 = default v (ss !! _full_key p k)) as Hget1.
  { intros k v Hin. unfold _get_session_state.
    rewrite (Hsame k v Hin), (Hval k v); [done|]. apply elem_of_app. by left. }
  assert (∀ k v, (k, v) ∈ first_defaults i1 i2 i3 →
            session_state st' !! _full_key p k = Some (_get_session_state p k ss1))
    as Hstore.
  { intros k v Hin. rewrite (Hget1 k v Hin). apply Hval. apply elem_of_app. by left. }
  assert (session_state st' !! _full_key p "show_selection"
          = Some (default (PyBool (is_None (of_optional i1) || is_None (of_optional i2)
                                   || is_None (of_optional i3)))
                    (ss !! _full_key p "show_selection"))) as Hsel.
  { apply Hval. apply elem_of_app. right. by apply list_elem_of_singleton. }
  assert (show_selection tc
          = default (PyBool (is_None (of_optional i1) || is_None (of_optional i2)
                             || is_None (of_optional i3)))
              (ss !! _full_key p "show_selection")) as Hshow'.
  { rewrite Hshow. unfold _get_session_state. by rewrite Hsel. }
  rewrite Hdb, Hsch, Htbl, Hshow'.
  split_and!; [done|done| | | |done| | | |done|exact Hkeep|exact Hnone].
  - apply (Hget1 _ _); by repeat constructor.
  - apply (Hget1 _ _); by repeat constructor.
  - apply (Hget1 _ _); by repeat constructor.
  - eapply Hstore; by repeat constructor.
  - eapply Hstore; by repeat constructor.
  - eapply Hstore; by repeat constructor.
Qed.




Lemma set_show_selection_keeps_model (key_prefix : string) (b : bool)
    (ss : gmap string pyval) :
  persist_is_set ss = true →
  persist_is_set (_set_session_state key_prefix "show_selection" (PyBool b) ss) = true.
Proof.
  unfold persist_is_set, _set_session_state.
  rewrite lookup_insert_ne; [done|].
  apply chooser_keys_not_reserved. by repeat constructor.
Qed.


(** The constructor of an ordinary class with no enclosing widget. *)
Lemma init_root_ordinary (cls : PyClass) (callers : list FrameInfo)
    (used0 : gset string) (i : nat) :
  kind cls = Ordinary → quiet callers = true →
  least_free (indexed_prefix (__name__ cls) "" "") used0 i →
  __init__ cls None callers used0
  = Ok (indexed_prefix (__name__ cls) "" "" i,
        {[indexed_prefix (__name__ cls) "" "" i]} ∪ used0).
Proof.
  intros [Hw Hb]%ordinary_is_widget Hq Hi. unfold __init__.
  rewrite walk_init_frame by done.
  destruct (visit_ordinary None cls false "" used0 Hb) as (i' & Hi' & ->).
  cbn [named_part] in Hi' |- *.
  rewrite (least_free_unique _ _ _ _ Hi' Hi), bind_Ok, walk_quiet by done.
  by rewrite bind_Ok.
Qed.

End chooser_facts.

(** ** The theorems on a small data source *)





